(** * Event ticket dashboard: a shallow embedding of [streamlit_app_01.py]

    The ticket sheet is a data frame with a default range index, so a row
    label is a row position: the frame is a [list Ticket] and
    [tickets.at[idx, col] = v] is an update at position [idx].  The handlers
    of the Streamlit script mutate the global frame [tickets]; here each one
    is a function from the frame before to the frame after, together with an
    [outcome] that says whether the handler ran, was not reachable from the
    widgets, or raised. *)

From stdpp Require Import base list strings pretty sorting.
From Stdlib Require Import ZArith Lia Ascii.

Local Open Scope string_scope.
Local Open Scope Z_scope.

(** ** Cells and Python string helpers *)

(** A sheet cell as pandas hands it over: an integer or a string.  A float
    cell takes part through its printed form only (["901.0"]), which is
    what [astype(str)] produces for it. *)
Inductive cell :=
  | CInt (z : Z)
  | CStr (s : string).

Global Instance cell_eq_dec : EqDecision cell.
Proof. solve_decision. Defined.

(** [astype(str)] on one cell. *)
Definition astype_str (x : cell) : string :=
  match x with
  | CInt z => pretty z
  | CStr s => s
  end.

(** [x.split('.')[0]]: the part of [x] before its first ["."]. *)
Fixpoint split_dot_0 (x : string) : string :=
  match x with
  | EmptyString => EmptyString
  | String c rest =>
      if Ascii.eqb c "."%char then EmptyString else String c (split_dot_0 rest)
  end.

Fixpoint zeros (n : nat) : string :=
  match n with
  | O => EmptyString
  | S n => String "0"%char (zeros n)
  end.

(** Python's [str.zfill(width)]: a string that is already [width] long is
    returned as it is; otherwise zeros are inserted, after a leading sign
    when the string starts with ["+"] or ["-"]. *)
Definition zfill (width : nat) (s : string) : string :=
  if (width <=? String.length s)%nat then s
  else
    let fill := zeros (width - String.length s) in
    match s with
    | String c rest =>
        if Ascii.eqb c "+"%char || Ascii.eqb c "-"%char then String c (fill +:+ rest)
        else fill +:+ s
    | EmptyString => fill
    end.

(** ** The ticket record (one row of the "tickets" sheet) *)

Record Ticket := mkTicket {
  TicketID : string;
  Type_ : string;
  Category : string;
  Seq : cell;
  Admit : Z;
  Sold : bool;
  Visited : bool;
  Customer : string;
  Visitor_Seats : Z;
  Timestamp : option string
}.

Global Instance Ticket_eq_dec : EqDecision Ticket.
Proof. solve_decision. Defined.

Definition set_Sold (v : bool) (r : Ticket) : Ticket :=
  mkTicket (TicketID r) (Type_ r) (Category r) (Seq r) (Admit r)
           v (Visited r) (Customer r) (Visitor_Seats r) (Timestamp r).
Definition set_Visited (v : bool) (r : Ticket) : Ticket :=
  mkTicket (TicketID r) (Type_ r) (Category r) (Seq r) (Admit r)
           (Sold r) v (Customer r) (Visitor_Seats r) (Timestamp r).
Definition set_Customer (v : string) (r : Ticket) : Ticket :=
  mkTicket (TicketID r) (Type_ r) (Category r) (Seq r) (Admit r)
           (Sold r) (Visited r) v (Visitor_Seats r) (Timestamp r).
Definition set_Visitor_Seats (v : Z) (r : Ticket) : Ticket :=
  mkTicket (TicketID r) (Type_ r) (Category r) (Seq r) (Admit r)
           (Sold r) (Visited r) (Customer r) v (Timestamp r).
Definition set_Timestamp (v : option string) (r : Ticket) : Ticket :=
  mkTicket (TicketID r) (Type_ r) (Category r) (Seq r) (Admit r)
           (Sold r) (Visited r) (Customer r) (Visitor_Seats r) v.

(** [tickets.at[idx, col] = v], with [set] the setter of column [col]. *)
Definition at_set (set : Ticket → Ticket) (idx : nat) (tickets : list Ticket)
  : list Ticket := alter set idx tickets.

(** [tickets[col] = v]: the whole column is overwritten. *)
Definition col_set (set : Ticket → Ticket) (tickets : list Ticket)
  : list Ticket := set <$> tickets.

(** ** Normalisation of ticket ids *)

Module Normalizer.

(** [load_all_data], line 26: the lambda applied to the string form of
    every [TicketID] cell. *)
Definition clean_TicketID (x : cell) : string :=
  zfill 4 (split_dot_0 (astype_str x)).

(** The bulk upload, line 137: [astype(str).str.zfill(4)].  pandas'
    [str.zfill] (from 1.5 on) applies Python's [str.zfill] to every
    element; on strings without a sign all versions agree. *)
Definition bulk_TicketID (x : cell) : string :=
  zfill 4 (astype_str x).

(** The normaliser as the specification words it: cut the string form at
    its first ["."] and put zeros in front until it is 4 long. *)
Definition spec_strip (s : string) : string :=
  match String.index 0 "." s with
  | Some n => String.substring 0 n s
  | None => s
  end.
Definition spec_pad_left (width : nat) (s : string) : string :=
  zeros (width - String.length s) +:+ s.
Definition spec_TicketID (x : cell) : string :=
  spec_pad_left 4 (spec_strip (astype_str x)).

(** The string starts with a sign. *)
Definition signed (s : string) : bool :=
  match s with
  | String c _ => Ascii.eqb c "+"%char || Ascii.eqb c "-"%char
  | EmptyString => false
  end.

(** Zeros put right after the first character. *)
Definition spec_pad_after_sign (width : nat) (s : string) : string :=
  match s with
  | String c rest => String c (zeros (width - String.length s) +:+ rest)
  | EmptyString => zeros width
  end.

End Normalizer.


(** ** Ticket operations *)

(** How a handler run ended.  [NotOffered]: the widgets cannot produce this
    input (the select box has no such entry, or the number input refuses the
    value), so the button's code never runs with it.  [IndexError]: taking
    element [0] of an empty index. *)
Inductive outcome :=
  | Saved
  | NotOffered
  | WrongPassword
  | IndexError.

Global Instance outcome_eq_dec : EqDecision outcome.
Proof. solve_decision. Defined.

Module Ops.

(** [tickets.index[tickets['TicketID'] == tid][0]] *)
Definition index_of_TicketID (tid : string) (tickets : list Ticket)
  : option nat :=
  fst <$> list_find (λ r, TicketID r = tid) tickets.

(** *** Reset Database (lines 63-73) *)

Definition reset_password : string := "admin123".

Definition Reset (admin_pass : string) (tickets : list Ticket)
  : outcome * list Ticket :=
  if decide (admin_pass = reset_password) then
    let tickets := col_set (set_Sold false) tickets in
    let tickets := col_set (set_Visited false) tickets in
    let tickets := col_set (set_Customer "") tickets in
    let tickets := col_set (set_Visitor_Seats 0) tickets in
    let tickets := col_set (set_Timestamp None) tickets in
    (Saved, tickets)
  else (WrongPassword, tickets).

(** *** Manual sale (lines 114-131) *)

(** The ids the select box offers: unsold tickets of the chosen type and
    category, in table order. *)
Definition avail (s_type s_cat : string) (tickets : list Ticket)
  : list string :=
  TicketID <$>
    filter (λ r, Type_ r = s_type ∧ Category r = s_cat ∧ Sold r = false)
           tickets.

(** The body of "Confirm Sale" for a selected id [tid]. *)
Definition confirm_sale (tid cust now : string) (tickets : list Ticket)
  : outcome * list Ticket :=
  match index_of_TicketID tid tickets with
  | None => (IndexError, tickets)
  | Some idx =>
      let tickets := at_set (set_Sold true) idx tickets in
      let tickets := at_set (set_Customer cust) idx tickets in
      let tickets := at_set (set_Timestamp (Some now)) idx tickets in
      (Saved, tickets)
  end.

(** The form: [choice] is the position the operator picks in the select
    box, which yields one of the offered ids; with nothing on offer the
    form is not rendered. *)
Definition Sell (s_type s_cat : string) (choice : nat) (cust now : string)
    (tickets : list Ticket) : outcome * list Ticket :=
  match avail s_type s_cat tickets !! choice with
  | None => (NotOffered, tickets)
  | Some tid => confirm_sale tid cust now tickets
  end.

(** *** Bulk upload (lines 133-146) *)

Record upload_row := mkUpload {
  up_TicketID : cell;
  CustomerName : string
}.

(** One pass of the loop body for a row whose id is already padded;
    [now] is the clock reading of this pass. *)
Definition bulk_step (tid cust now : string) (tickets : list Ticket)
  : list Ticket :=
  match list_find (λ r, TicketID r = tid ∧ Sold r = false) tickets with
  | Some (idx, _) =>
      let tickets := at_set (set_Sold true) idx tickets in
      let tickets := at_set (set_Customer cust) idx tickets in
      let tickets := at_set (set_Timestamp (Some now)) idx tickets in
      tickets
  | None => tickets
  end.

(** The loop over the uploaded rows; [clock k] is the time read in pass
    [k]. *)
Fixpoint bulk_loop (clock : nat → string) (k : nat)
    (up_df : list (string * string)) (tickets : list Ticket) : list Ticket :=
  match up_df with
  | [] => tickets
  | (tid, cust) :: rest =>
      bulk_loop clock (S k) rest (bulk_step tid cust (clock k) tickets)
  end.

Definition BulkSell (clock : nat → string) (up_df : list upload_row)
    (tickets : list Ticket) : outcome * list Ticket :=
  let up_df :=
    (λ row, (Normalizer.bulk_TicketID (up_TicketID row), CustomerName row))
      <$> up_df in
  (Saved, bulk_loop clock 0 up_df tickets).

(** *** Check-in (lines 155-175) *)

Definition elig (v_type v_cat : string) (tickets : list Ticket)
  : list string :=
  TicketID <$>
    filter (λ r, Type_ r = v_type ∧ Category r = v_cat ∧
                 Sold r = true ∧ Visited r = false)
           tickets.

(** [int(tickets[tickets['TicketID'] == tid]['Admit'].values[0])] *)
Definition max_v (tid : string) (tickets : list Ticket) : option Z :=
  (Admit ∘ snd) <$> list_find (λ r, TicketID r = tid) tickets.

(** [st.number_input(label, min_value, max_value, value)]: the widget
    hands back the entered number only when it lies between its bounds;
    anything else never reaches the script. *)
Definition number_input (min_value max_value entered : Z) : option Z :=
  if decide (min_value ≤ entered ≤ max_value) then Some entered else None.

(** The body of "Confirm Entry". *)
Definition confirm_entry (tid : string) (v_count : Z) (now : string)
    (tickets : list Ticket) : outcome * list Ticket :=
  match index_of_TicketID tid tickets with
  | None => (IndexError, tickets)
  | Some idx =>
      let tickets := at_set (set_Visited true) idx tickets in
      let tickets := at_set (set_Visitor_Seats v_count) idx tickets in
      let tickets := at_set (set_Timestamp (Some now)) idx tickets in
      (Saved, tickets)
  end.

Definition CheckIn (v_type v_cat : string) (choice : nat) (entered : Z)
    (now : string) (tickets : list Ticket) : outcome * list Ticket :=
  match elig v_type v_cat tickets !! choice with
  | None => (NotOffered, tickets)
  | Some tid =>
      match max_v tid tickets with
      | None => (IndexError, tickets)
      | Some m =>
          match number_input 1 m entered with
          | None => (NotOffered, tickets)
          | Some v_count => confirm_entry tid v_count now tickets
          end
      end
  end.

(** *** Vocabulary for the statements *)

(** Every row with [Visited] set also has [Sold] set. *)
Definition visited_implies_sold (tickets : list Ticket) : Prop :=
  Forall (λ r, Visited r = true → Sold r = true) tickets.

(** [r] sits at position [idx] and is the first row bearing [tid]. *)
Definition first_with (tid : string) (tickets : list Ticket)
    (idx : nat) (r : Ticket) : Prop :=
  tickets !! idx = Some r ∧ TicketID r = tid ∧
  ∀ j y, tickets !! j = Some y → (j < idx)%nat → TicketID y ≠ tid.

(** The row a sale, a check-in and a correct reset leave behind. *)
Definition sold_to (cust now : string) (r : Ticket) : Ticket :=
  mkTicket (TicketID r) (Type_ r) (Category r) (Seq r) (Admit r)
           true (Visited r) cust (Visitor_Seats r) (Some now).
Definition checked_in (v_count : Z) (now : string) (r : Ticket) : Ticket :=
  mkTicket (TicketID r) (Type_ r) (Category r) (Seq r) (Admit r)
           (Sold r) true (Customer r) v_count (Some now).
Definition cleared (r : Ticket) : Ticket :=
  mkTicket (TicketID r) (Type_ r) (Category r) (Seq r) (Admit r)
           false false "" 0 None.

End Ops.


(** ** Dashboard: custom sort and aggregation *)

Module Aggregator.

(** *** Python's [int] on a string (base 10) *)

(** ASCII white space as [int] strips it: codes 9-13 and 28-32. *)
Definition is_space (c : ascii) : bool :=
  let n := nat_of_ascii c in
  ((9 <=? n) && (n <=? 13) || (28 <=? n) && (n <=? 32))%nat.

Fixpoint lstrip (s : string) : string :=
  match s with
  | String c rest => if is_space c then lstrip rest else s
  | EmptyString => EmptyString
  end.

Fixpoint rstrip (s : string) : string :=
  match s with
  | String c rest =>
      match rstrip rest with
      | EmptyString => if is_space c then EmptyString else String c EmptyString
      | rest' => String c rest'
      end
  | EmptyString => EmptyString
  end.

Definition digit_of (c : ascii) : option Z :=
  let n := nat_of_ascii c in
  if ((48 <=? n) && (n <=? 57))%nat then Some (Z.of_nat n - 48) else None.

(** Digits with single underscores between them; [after_digit] says that
    the previous character was a digit. *)
Fixpoint digits (after_digit : bool) (acc : Z) (s : string) : option Z :=
  match s with
  | EmptyString => if after_digit then Some acc else None
  | String c rest =>
      if Ascii.eqb c "_" then
        if after_digit then digits false acc rest else None
      else
        match digit_of c with
        | Some d => digits true (10 * acc + d) rest
        | None => None
        end
  end.

(** [int(s)]; [None] stands for [ValueError]. *)
Definition int_of_str (s : string) : option Z :=
  match rstrip (lstrip s) with
  | String c rest =>
      if Ascii.eqb c "-" then Z.opp <$> digits false 0 rest
      else if Ascii.eqb c "+" then digits false 0 rest
      else digits false 0 (String c rest)
  | EmptyString => None
  end.

(** *** [custom_sort] (lines 48-51) *)

(** The lambda: [10 if x == 0 or x == '0' else int(x)]. *)
Definition sort_key (x : cell) : option Z :=
  match x with
  | CInt z => if decide (z = 0) then Some 10 else Some z
  | CStr s => if decide (s = "0") then Some 10 else int_of_str s
  end.




Definition key_le {A} (p q : Z * A) : Prop := p.1 ≤ q.1.

Global Instance key_le_dec {A} (p q : Z * A) : Decision (key_le p q).
Proof. unfold key_le. apply _. Defined.

Section custom_sort.
(** A frame of rows of type [A]; [Seq_col] reads the [Seq] column when
    the frame has one. *)
Context {A : Type} (Seq_col : option (A → cell)).

(** [df.assign(sort_key=...)]: every row with its key, or [None] when
    some [int(x)] raises. *)
Definition assign_sort_key (get : A → cell) (df : list A)
  : option (list (Z * A)) :=
  mapM (λ r, k ← sort_key (get r); Some (k, r)) df.

(** [sort_values('sort_key').drop(columns='sort_key')].  The sort is a
    merge sort on the keys; the statements below rely on sortedness and
    on the rows being kept only, never on the order among equal keys. *)
Definition custom_sort (df : list A) : option (list A) :=
  match Seq_col with
  | None => Some df
  | Some get =>
      keyed ← assign_sort_key get df;
      Some (snd <$> merge_sort key_le keyed)
  end.
End custom_sort.

(** *** The summary table (lines 82-98) *)

Record group_key := mkKey {
  k_Seq : cell;
  k_Type : string;
  k_Category : string;
  k_Admit : Z
}.

Global Instance group_key_eq_dec : EqDecision group_key.
Proof. solve_decision. Defined.

Definition key_of (r : Ticket) : group_key :=
  mkKey (Seq r) (Type_ r) (Category r) (Admit r).

Record summary_row := mkSummary {
  g_Seq : cell;
  g_Type : string;
  g_Category : string;
  g_Admit : Z;
  Total_Tickets : Z;
  Tickets_Sold : Z;
  Total_Seats : Z;
  Seats_sold : Z;
  Total_Visitors : Z;
  Balance_Tickets : Z;
  Balance_Seats : Z;
  Balance_Visitors : Z
}.

(** Group keys come out in key order: numbers before strings in [Seq],
    then column by column. *)
Definition cell_cmp (x y : cell) : comparison :=
  match x, y with
  | CInt a, CInt b => a ?= b
  | CInt _, CStr _ => Lt
  | CStr _, CInt _ => Gt
  | CStr a, CStr b => String.compare a b
  end.

Definition group_key_cmp (k1 k2 : group_key) : comparison :=
  match cell_cmp (k_Seq k1) (k_Seq k2) with
  | Eq =>
      match String.compare (k_Type k1) (k_Type k2) with
      | Eq =>
          match String.compare (k_Category k1) (k_Category k2) with
          | Eq => k_Admit k1 ?= k_Admit k2
          | c => c
          end
      | c => c
      end
  | c => c
  end.

Definition group_key_le (k1 k2 : group_key) : Prop :=
  group_key_cmp k1 k2 ≠ Gt.

Global Instance group_key_le_dec k1 k2 : Decision (group_key_le k1 k2).
Proof. unfold group_key_le. apply _. Defined.

Definition sum_Z (l : list Z) : Z := foldr Z.add 0 l.

(** The rows of one group. *)
Definition group_rows (k : group_key) (tickets : list Ticket) : list Ticket :=
  filter (λ r, key_of r = k) tickets.

(** The number columns of the summary are 64-bit: a sum, product or
    difference that leaves the range wraps around. *)
Definition wrap64 (z : Z) : Z := (z + 2 ^ 63) mod 2 ^ 64 - 2 ^ 63.


(** [.agg(...)] for one group, then the derived columns of lines 88-92.
    ['count'] counts the ids that are not null; after loading every id is
    a string.  The two counts, and their difference [Balance_Tickets], lie
    between 0 and the number of rows, which a frame keeps below [2 ^ 63];
    the sum of [Visitor_Seats], the two products and the two differences
    made from them are 64-bit results. *)
Definition summary_of (k : group_key) (rows : list Ticket) : summary_row :=
  let total_tickets := Z.of_nat (length (TicketID <$> rows)) in
  let tickets_sold := sum_Z ((Z.b2z ∘ Sold) <$> rows) in
  let total_visitors := wrap64 (sum_Z (Visitor_Seats <$> rows)) in
  let total_seats := wrap64 (total_tickets * k_Admit k) in
  let seats_sold := wrap64 (tickets_sold * k_Admit k) in
  mkSummary (k_Seq k) (k_Type k) (k_Category k) (k_Admit k)
    total_tickets tickets_sold total_seats seats_sold total_visitors
    (total_tickets - tickets_sold)
    (wrap64 (total_seats - seats_sold))
    (wrap64 (seats_sold - total_visitors)).

(** The group-by of line 82.  A ticket record has all four key cells; a
    row with a blank key cell, which pandas leaves out of every group, is
    not a value of [Ticket]. *)
Definition groupby (tickets : list Ticket) : list summary_row :=
  (λ k, summary_of k (group_rows k tickets)) <$>
    merge_sort group_key_le (remove_dups (key_of <$> tickets)).


End Aggregator.


(** ** Loading the sheets (lines 14-37) *)

Module Loader.

(** A cell of a sheet before cleaning: blank, a boolean, a whole number or
    text. *)
Inductive raw :=
  | RNaN
  | RBool (b : bool)
  | RInt (z : Z)
  | RStr (s : string).

Global Instance raw_eq_dec : EqDecision raw.
Proof. solve_decision. Defined.

(** The cell [astype(str)] sees: a blank prints as ["nan"], a boolean as
    ["True"] or ["False"]. *)
Definition raw_cell (x : raw) : cell :=
  match x with
  | RNaN => CStr "nan"
  | RBool true => CStr "True"
  | RBool false => CStr "False"
  | RInt z => CInt z
  | RStr s => CStr s
  end.

(** [fillna(False).astype(bool)]: a blank is false, a number is true when
    it is not 0, a text when it is not empty. *)
Definition to_bool (x : raw) : bool :=
  match x with
  | RNaN => false
  | RBool b => b
  | RInt z => negb (z =? 0)
  | RStr s => negb (String.eqb s "")
  end.

Record RawTicket := mkRaw {
  r_TicketID : raw;
  r_Type : string;
  r_Category : string;
  r_Seq : cell;
  r_Admit : Z;
  r_Sold : raw;
  r_Visited : raw;
  r_Customer : string;
  r_Visitor_Seats : raw;
  r_Timestamp : option string
}.

(** One row of the "menu" sheet. *)
Record MenuEntry := mkMenu {
  m_Type : string;
  m_Category : string;
  m_Seq : cell
}.

Section load.
(** What [pd.to_numeric] reads in a text cell, cut to a whole number;
    [None] when the text is no number and is coerced to a blank. *)
Variable to_numeric_str : string → option Z.

(** [pd.to_numeric(..., errors='coerce').fillna(0).astype(int)] *)
Definition to_int (x : raw) : Z :=
  match x with
  | RNaN => 0
  | RBool b => Z.b2z b
  | RInt z => z
  | RStr s => default 0 (to_numeric_str s)
  end.

Definition clean_row (r : RawTicket) : Ticket :=
  mkTicket (Normalizer.clean_TicketID (raw_cell (r_TicketID r)))
           (r_Type r) (r_Category r) (r_Seq r) (r_Admit r)
           (to_bool (r_Sold r)) (to_bool (r_Visited r)) (r_Customer r)
           (to_int (r_Visitor_Seats r)) (r_Timestamp r).

(** [None]: a sheet came back empty and the script stops. *)
Definition load_all_data (tickets_df : list RawTicket)
    (menu_df : list MenuEntry) : option (list Ticket * list MenuEntry) :=
  match tickets_df, menu_df with
  | [], _ | _, [] => None
  | _, _ => Some (clean_row <$> tickets_df, menu_df)
  end.
End load.

End Loader.

(** ** The tabs as the operator reaches them *)

Module Tabs.

(** [st.radio("Type", ["Public", "Guest"])] *)
Definition type_radio (i : nat) : option string := ["Public"; "Guest"] !! i.

(** [menu[menu['Type'] == s_type]['Category']] *)
Definition categories (s_type : string) (menu : list Loader.MenuEntry)
  : list string :=
  Loader.m_Category <$> filter (λ m, Loader.m_Type m = s_type) menu.

(** The manual sale from the top of the tab: the type comes from the
    radio, the category from the select box over the menu.  With no
    category to select the box yields [None], no ticket matches it and the
    form is not rendered. *)
Definition sale_tab (menu : list Loader.MenuEntry) (type_choice cat_choice : nat)
    (choice : nat) (cust now : string) (tickets : list Ticket)
  : outcome * list Ticket :=
  match type_radio type_choice with
  | None => (NotOffered, tickets)
  | Some s_type =>
      match categories s_type menu !! cat_choice with
      | None => (NotOffered, tickets)
      | Some s_cat => Ops.Sell s_type s_cat choice cust now tickets
      end
  end.

Definition visitors_tab (menu : list Loader.MenuEntry)
    (type_choice cat_choice : nat) (choice : nat) (entered : Z) (now : string)
    (tickets : list Ticket) : outcome * list Ticket :=
  match type_radio type_choice with
  | None => (NotOffered, tickets)
  | Some v_type =>
      match categories v_type menu !! cat_choice with
      | None => (NotOffered, tickets)
      | Some v_cat => Ops.CheckIn v_type v_cat choice entered now tickets
      end
  end.

(** *** Recent sales (lines 149-152) *)

(** Newest time stamp first, rows without one last. *)
Definition recent_before (a b : Ticket) : Prop :=
  match Timestamp a, Timestamp b with
  | Some x, Some y => String.le y x
  | Some _, None => True
  | None, Some _ => False
  | None, None => True
  end.

Global Instance recent_before_dec a b : Decision (recent_before a b).
Proof. unfold recent_before. destruct (Timestamp a), (Timestamp b); apply _. Defined.

(** [tickets[tickets['Sold']].sort_values('Timestamp', ascending=False)] *)
Definition recent_sales_rows (tickets : list Ticket) : list Ticket :=
  merge_sort recent_before (filter (λ r, Sold r = true) tickets).

(** [...[['TicketID', 'Category', 'Customer']]] *)
Definition recent_sales (tickets : list Ticket)
  : list (string * string * string) :=
  (λ r, (TicketID r, Category r, Customer r)) <$> recent_sales_rows tickets.

(** *** Vocabulary for the statements *)

(** The seats used fit the ticket: none on an unsold ticket, at most
    [Admit] on a sold one. *)
Definition seats_within (r : Ticket) : Prop :=
  0 ≤ Admit r ∧ 0 ≤ Visitor_Seats r ≤ (if Sold r then Admit r else 0).

(** A ticket that was sold is still sold, one that was visited is still
    visited. *)
Definition never_back (r r' : Ticket) : Prop :=
  (Sold r = true → Sold r' = true) ∧ (Visited r = true → Visited r' = true).

(** The number of unsold rows bearing [tid]. *)
Definition unsold_count (tid : string) (tickets : list Ticket) : nat :=
  length (filter (λ r, TicketID r = tid ∧ Sold r = false) tickets).

End Tabs.

(** ** Character classes for the statements about strings *)

Module Chars.

Fixpoint str_all (P : ascii → bool) (s : string) : bool :=
  match s with
  | EmptyString => true
  | String c rest => P c && str_all P rest
  end.

(** One of ["0"] to ["9"]. *)
Definition is_digit (c : ascii) : bool :=
  match Aggregator.digit_of c with
  | Some _ => true
  | None => false
  end.

Definition no_space (c : ascii) : bool := negb (Aggregator.is_space c).

Definition not_dot (c : ascii) : bool := negb (Ascii.eqb c ".").

End Chars.

(** * Properties *)

(** ** The helpers on concrete inputs *)

Example zfill_short : zfill 4 "12" = "0012".
Proof. reflexivity. Qed.

Example zfill_long : zfill 4 "901.0" = "901.0".
Proof. reflexivity. Qed.

Example zfill_signed : zfill 4 "-1" = "-001".
Proof. reflexivity. Qed.

Example zfill_empty : zfill 4 "" = "0000".
Proof. reflexivity. Qed.

Example split_dot_0_float : split_dot_0 "901.0" = "901".
Proof. reflexivity. Qed.

Example int_of_str_plain : Aggregator.int_of_str " 12 " = Some 12.
Proof. reflexivity. Qed.

Example int_of_str_signed : Aggregator.int_of_str "-1_0" = Some (-10).
Proof. reflexivity. Qed.

Example int_of_str_word : Aggregator.int_of_str "Total" = None.
Proof. reflexivity. Qed.

Example sort_key_zero_string : Aggregator.sort_key (CStr "0") = Some 10.
Proof. reflexivity. Qed.

Example sort_key_double_zero : Aggregator.sort_key (CStr "00") = Some 0.
Proof. reflexivity. Qed.

Example custom_sort_no_Seq_column :
  Aggregator.custom_sort (A:=Z) None [3; 0; 1] = Some [3; 0; 1].
Proof. reflexivity. Qed.

Example custom_sort_bad_cell :
  Aggregator.custom_sort (Some id) [CInt 2; CStr "n/a"] = None.
Proof. reflexivity. Qed.

(** ** Normaliser *)

Section NormalizerFacts.
Import Normalizer.

Lemma split_dot_0_spec_strip s : split_dot_0 s = spec_strip s.
Proof.
  unfold spec_strip. induction s as [|c s IH]; [done|].
  cbn [split_dot_0 String.index String.prefix].
  destruct (Ascii.eqb_spec c "."%char) as [->|Hc].
  - destruct (ascii_dec "." ".") as [_|Hne]; [|done].
    by destruct s.
  - destruct (ascii_dec "." c) as [<-|_]; [done|].
    rewrite IH. by destruct (String.index 0 "." s) as [n|].
Qed.

Lemma append_empty_r (s : string) : s +:+ "" = s.
Proof.
  induction s as [|c s IH]; [done|].
  change (String c (s +:+ "") = String c s). by rewrite IH.
Qed.

(** [zfill] written out: padding goes after a leading sign, otherwise in
    front. *)
Lemma zfill_cases width s :
  zfill width s =
    if signed s then spec_pad_after_sign width s else spec_pad_left width s.
Proof.
  unfold zfill, spec_pad_after_sign, spec_pad_left, signed.
  destruct (Nat.leb_spec width (String.length s)) as [Hle|Hlt].
  - replace (width - String.length s)%nat with 0%nat by lia.
    destruct s as [|c s]; [|by destruct (_ || _)].
    simpl in Hle. by replace width with 0%nat by lia.
  - destruct s as [|c s]; [|done].
    simpl. by rewrite Nat.sub_0_r, append_empty_r.
Qed.
End NormalizerFacts.

(** C6, as the code has it: the normaliser takes the string form of the
    cell, drops the first ["."] and everything after it, and fills with
    zeros up to 4 characters; the zeros go in front of the string, except
    that they go right after a leading ["+"] or ["-"].  ["901.0"] gives
    ["0901"] and ["12"] gives ["0012"]. *)
Theorem clean_TicketID_zero_fill (x : cell) :
  let s := Normalizer.spec_strip (astype_str x) in
  Normalizer.clean_TicketID x =
    (if Normalizer.signed s then Normalizer.spec_pad_after_sign 4 s
     else Normalizer.spec_pad_left 4 s)
  ∧ Normalizer.clean_TicketID (CStr "901.0") = "0901"
  ∧ Normalizer.clean_TicketID (CStr "12") = "0012"
  ∧ Normalizer.clean_TicketID (CInt 12) = "0012".
Proof.
  split; [|done]. unfold Normalizer.clean_TicketID.
  by rewrite split_dot_0_spec_strip, zfill_cases.
Qed.

(** C6 as worded (zeros put on the left of the string) fails on a cell
    that starts with a sign: ["-1"] becomes ["-001"], not ["00-1"]. *)
Lemma clean_TicketID_sign_not_left_padded :
  Normalizer.clean_TicketID (CStr "-1") = "-001"
  ∧ Normalizer.spec_TicketID (CStr "-1") = "00-1"
  ∧ ¬ (∀ x, Normalizer.clean_TicketID x = Normalizer.spec_TicketID x).
Proof.
  split_and!; [done..|]. intros H. specialize (H (CStr "-1")). discriminate.
Qed.

(** The two normalisers agree on every string form without a ["."]. *)
Lemma bulk_TicketID_no_dot (x : cell) :
  String.index 0 "." (astype_str x) = None →
  Normalizer.bulk_TicketID x = Normalizer.clean_TicketID x.
Proof.
  intros Hdot. unfold Normalizer.bulk_TicketID, Normalizer.clean_TicketID.
  rewrite split_dot_0_spec_strip. unfold Normalizer.spec_strip.
  by rewrite Hdot.
Qed.

(** C4: the bulk upload pads but does not cut at the ["."], so an uploaded
    ["901.0"] stays ["901.0"], differs from the loaded id ["0901"], and the
    upload row sells nothing. *)
Theorem bulk_TicketID_keeps_dot :
  Normalizer.bulk_TicketID (CStr "901.0") = "901.0"
  ∧ Normalizer.clean_TicketID (CStr "901.0") = "0901"
  ∧ Normalizer.bulk_TicketID (CStr "901.0")
      ≠ Normalizer.clean_TicketID (CStr "901.0")
  ∧ ∀ clock cust ty cat seq seats,
      let t := mkTicket (Normalizer.clean_TicketID (CStr "901.0"))
                        ty cat seq seats false false "" 0 None in
      Ops.BulkSell clock [Ops.mkUpload (CStr "901.0") cust] [t] = (Saved, [t]).
Proof. split_and!; done. Qed.

(** ** Reset *)

Section ResetFacts.
Import Ops.

Lemma Reset_correct_password tickets :
  Reset reset_password tickets = (Saved, cleared <$> tickets).
Proof.
  unfold Reset, col_set. rewrite decide_True by done.
  f_equal. rewrite <- !list_fmap_compose. by apply list_fmap_ext.
Qed.
End ResetFacts.

(** C7: with the password equal to the reset password every row has [Sold]
    and [Visited] false, an empty [Customer], [Visitor_Seats] 0 and no
    [Timestamp], the other columns and the number of rows being kept; with
    any other password the table is returned as it was and nothing is
    raised. *)
Theorem Reset_password_gate (admin_pass : string) (tickets : list Ticket) :
  (admin_pass = "admin123" →
     (Ops.Reset admin_pass tickets).1 = Saved
     ∧ length (Ops.Reset admin_pass tickets).2 = length tickets
     ∧ ∀ i r, tickets !! i = Some r →
         ∃ r', (Ops.Reset admin_pass tickets).2 !! i = Some r'
           ∧ Sold r' = false ∧ Visited r' = false ∧ Customer r' = ""
           ∧ Visitor_Seats r' = 0 ∧ Timestamp r' = None
           ∧ TicketID r' = TicketID r ∧ Type_ r' = Type_ r
           ∧ Category r' = Category r ∧ Seq r' = Seq r ∧ Admit r' = Admit r)
  ∧ (admin_pass ≠ "admin123" →
     Ops.Reset admin_pass tickets = (WrongPassword, tickets)).
Proof.
  split.
  - intros ->. change "admin123" with Ops.reset_password.
    rewrite Reset_correct_password. cbn [fst snd].
    split_and!; [done|by rewrite length_fmap|].
    intros i r Hi. exists (Ops.cleared r).
    rewrite list_lookup_fmap, Hi. by split_and!.
  - intros Hne. unfold Ops.Reset. by rewrite decide_False.
Qed.

Lemma Reset_password_gate_witness :
  let t := [mkTicket "0007" "Public" "Gold" (CInt 1) 2 true true "Ann" 2
                     (Some "2024-01-01 10:00:00")] in
  "admin123" = "admin123"
  ∧ (Ops.Reset "admin123" t).1 = Saved
  ∧ "Admin123" ≠ "admin123"
  ∧ Ops.Reset "Admin123" t = (WrongPassword, t).
Proof.
  intros t.
  assert (Hne : "Admin123" ≠ "admin123") by discriminate.
  split_and!; [reflexivity| |exact Hne|].
  - exact (proj1 (proj1 (Reset_password_gate "admin123" t) eq_refl)).
  - exact (proj2 (Reset_password_gate "Admin123" t) Hne).
Defined.

(** ** Row lookup and in-place updates *)

Section OpsFacts.
Import Ops.
Implicit Types (tickets : list Ticket) (r : Ticket) (tid : string).

Lemma index_of_TicketID_Some tid tickets idx :
  index_of_TicketID tid tickets = Some idx ↔
  ∃ r, first_with tid tickets idx r.
Proof.
  unfold index_of_TicketID, first_with. split.
  - destruct (list_find _ tickets) as [[i r]|] eqn:Hfind; [|done].
    intros [= <-]. apply list_find_Some in Hfind as (?&?&?). eauto.
  - intros (r & Hidx & Hid & Hfirst).
    assert (list_find (λ r, TicketID r = tid) tickets = Some (idx, r)) as ->;
      [|done].
    apply list_find_Some. eauto.
Qed.

Lemma index_of_TicketID_None tid tickets :
  index_of_TicketID tid tickets = None ↔
  ∀ r, r ∈ tickets → TicketID r ≠ tid.
Proof.
  unfold index_of_TicketID. rewrite fmap_None, list_find_None, Forall_forall.
  done.
Qed.

Lemma first_with_exists tid tickets r0 :
  r0 ∈ tickets → TicketID r0 = tid → ∃ idx r, first_with tid tickets idx r.
Proof.
  intros Hin Hid.
  destruct (index_of_TicketID tid tickets) as [idx|] eqn:Hidx.
  - apply index_of_TicketID_Some in Hidx as [r Hr]. eauto.
  - rewrite index_of_TicketID_None in Hidx. by destruct (Hidx r0).
Qed.

Lemma first_with_unique tid tickets i1 r1 i2 r2 :
  first_with tid tickets i1 r1 → first_with tid tickets i2 r2 →
  i1 = i2 ∧ r1 = r2.
Proof.
  intros (H1 & Hid1 & Hf1) (H2 & Hid2 & Hf2).
  assert (i1 = i2) as ->.
  { destruct (Nat.lt_trichotomy i1 i2) as [Hlt|[->|Hlt]]; [|done|].
    - by destruct (Hf2 _ _ H1 Hlt).
    - by destruct (Hf1 _ _ H2 Hlt). }
  split; [done|congruence].
Qed.

(** With pairwise different ids, a row bearing [tid] is the first one. *)
Lemma first_with_NoDup tid tickets i r :
  NoDup (TicketID <$> tickets) →
  tickets !! i = Some r → TicketID r = tid → first_with tid tickets i r.
Proof.
  intros Hnd Hi Hid. split_and!; [done..|].
  intros j y Hj Hlt Hy.
  assert (j = i); [|lia].
  apply (NoDup_lookup _ _ _ tid Hnd); rewrite list_lookup_fmap.
  - by rewrite Hj; simpl; rewrite Hy.
  - by rewrite Hi; simpl; rewrite Hid.
Qed.

(** Three column writes at one position are one row replacement. *)
Lemma at_set_thrice f1 f2 f3 idx tickets r :
  tickets !! idx = Some r →
  at_set f3 idx (at_set f2 idx (at_set f1 idx tickets))
  = <[idx := f3 (f2 (f1 r))]> tickets.
Proof.
  intros Hidx. unfold at_set. apply list_eq. intros j.
  destruct (decide (idx = j)) as [<-|Hne].
  - rewrite !list_lookup_alter_eq, Hidx. simpl.
    by rewrite list_lookup_insert_eq by by eapply lookup_lt_Some.
  - by rewrite !list_lookup_alter_ne, list_lookup_insert_ne.
Qed.

Lemma confirm_sale_first tid cust now tickets idx r :
  first_with tid tickets idx r →
  confirm_sale tid cust now tickets
  = (Saved, <[idx := sold_to cust now r]> tickets).
Proof.
  intros Hfirst. unfold confirm_sale.
  assert (index_of_TicketID tid tickets = Some idx) as ->
    by (apply index_of_TicketID_Some; eauto).
  destruct Hfirst as (Hidx & _). by erewrite at_set_thrice.
Qed.

Lemma confirm_sale_absent tid cust now tickets :
  (∀ r, r ∈ tickets → TicketID r ≠ tid) →
  confirm_sale tid cust now tickets = (IndexError, tickets).
Proof.
  intros Habs%index_of_TicketID_None. unfold confirm_sale. by rewrite Habs.
Qed.

Lemma confirm_entry_first tid v_count now tickets idx r :
  first_with tid tickets idx r →
  confirm_entry tid v_count now tickets
  = (Saved, <[idx := checked_in v_count now r]> tickets).
Proof.
  intros Hfirst. unfold confirm_entry.
  assert (index_of_TicketID tid tickets = Some idx) as ->
    by (apply index_of_TicketID_Some; eauto).
  destruct Hfirst as (Hidx & _). by erewrite at_set_thrice.
Qed.

Lemma max_v_first tid tickets idx r :
  first_with tid tickets idx r → max_v tid tickets = Some (Admit r).
Proof.
  intros (Hidx & Hid & Hfirst). unfold max_v.
  assert (list_find (λ r, TicketID r = tid) tickets = Some (idx, r)) as ->;
    [|done].
  apply list_find_Some. eauto.
Qed.

Lemma avail_row s_type s_cat tickets choice tid :
  avail s_type s_cat tickets !! choice = Some tid →
  ∃ r, r ∈ tickets ∧ TicketID r = tid ∧ Type_ r = s_type
       ∧ Category r = s_cat ∧ Sold r = false.
Proof.
  intros Hch%list_elem_of_lookup_2.
  apply list_elem_of_fmap in Hch as (r & -> & Hr).
  apply list_elem_of_filter in Hr as ((?&?&?)&?). eauto 10.
Qed.

Lemma elig_row v_type v_cat tickets choice tid :
  elig v_type v_cat tickets !! choice = Some tid →
  ∃ r, r ∈ tickets ∧ TicketID r = tid ∧ Type_ r = v_type
       ∧ Category r = v_cat ∧ Sold r = true ∧ Visited r = false.
Proof.
  intros Hch%list_elem_of_lookup_2.
  apply list_elem_of_fmap in Hch as (r & -> & Hr).
  apply list_elem_of_filter in Hr as ((?&?&?&?)&?). eauto 10.
Qed.

(** A sale through the form always finds its row: the first one bearing
    the selected id. *)
Lemma Sell_first s_type s_cat choice cust now tickets tid :
  avail s_type s_cat tickets !! choice = Some tid →
  ∃ idx r, first_with tid tickets idx r ∧
    Sell s_type s_cat choice cust now tickets
    = (Saved, <[idx := sold_to cust now r]> tickets).
Proof.
  intros Hch. unfold Sell. rewrite Hch.
  destruct (avail_row _ _ _ _ _ Hch) as (r0 & Hin & Hid & _).
  destruct (first_with_exists _ _ _ Hin Hid) as (idx & r & Hfirst).
  exists idx, r. split; [done|]. by apply confirm_sale_first.
Qed.

Lemma CheckIn_first v_type v_cat choice entered now tickets tid :
  elig v_type v_cat tickets !! choice = Some tid →
  ∃ idx r, first_with tid tickets idx r ∧
    CheckIn v_type v_cat choice entered now tickets
    = if decide (1 ≤ entered ≤ Admit r)
      then (Saved, <[idx := checked_in entered now r]> tickets)
      else (NotOffered, tickets).
Proof.
  intros Hch. unfold CheckIn. rewrite Hch.
  destruct (elig_row _ _ _ _ _ Hch) as (r0 & Hin & Hid & _).
  destruct (first_with_exists _ _ _ Hin Hid) as (idx & r & Hfirst).
  exists idx, r. split; [done|].
  rewrite (max_v_first _ _ _ _ Hfirst). unfold number_input.
  destruct (decide (1 ≤ entered ≤ Admit r)); [|done].
  by apply confirm_entry_first.
Qed.

(** One pass of the bulk loop either leaves the table alone or sells the
    first unsold row bearing the id. *)
Lemma bulk_step_cases tid cust now tickets :
  bulk_step tid cust now tickets = tickets ∨
  ∃ idx r, tickets !! idx = Some r ∧ TicketID r = tid ∧ Sold r = false ∧
    bulk_step tid cust now tickets = <[idx := sold_to cust now r]> tickets.
Proof.
  unfold bulk_step.
  destruct (list_find _ tickets) as [[idx r]|] eqn:Hfind; [|by left].
  apply list_find_Some in Hfind as (Hidx & [Hid Hsold] & _).
  right. exists idx, r. split_and!; [done..|]. by erewrite at_set_thrice.
Qed.

(** *** The invariant, operation by operation *)

Lemma visited_implies_sold_insert tickets idx r' :
  visited_implies_sold tickets →
  (Visited r' = true → Sold r' = true) →
  visited_implies_sold (<[idx := r']> tickets).
Proof. intros Hinv Hr'. by apply Forall_insert. Qed.

Lemma bulk_step_inv tid cust now tickets :
  visited_implies_sold tickets →
  visited_implies_sold (bulk_step tid cust now tickets).
Proof.
  intros Hinv.
  destruct (bulk_step_cases tid cust now tickets)
    as [->|(idx & r & _ & _ & _ & ->)]; [done|].
  by apply visited_implies_sold_insert.
Qed.

Lemma bulk_loop_inv clock k up_df tickets :
  visited_implies_sold tickets →
  visited_implies_sold (bulk_loop clock k up_df tickets).
Proof.
  revert k tickets.
  induction up_df as [|[tid cust] rest IH]; intros k tickets Hinv; [done|].
  simpl. by apply IH, bulk_step_inv.
Qed.

Lemma Sell_inv s_type s_cat choice cust now tickets :
  visited_implies_sold tickets →
  visited_implies_sold (Sell s_type s_cat choice cust now tickets).2.
Proof.
  intros Hinv.
  destruct (avail s_type s_cat tickets !! choice) as [tid|] eqn:Hch.
  - destruct (Sell_first _ _ _ cust now _ _ Hch) as (idx & r & _ & ->).
    by apply visited_implies_sold_insert.
  - unfold Sell. by rewrite Hch.
Qed.

Lemma Reset_inv admin_pass tickets :
  visited_implies_sold tickets →
  visited_implies_sold (Reset admin_pass tickets).2.
Proof.
  intros Hinv. destruct (decide (admin_pass = reset_password)) as [->|Hne].
  - rewrite Reset_correct_password. simpl.
    apply Forall_fmap, Forall_true. intros r. simpl. discriminate.
  - unfold Reset. by rewrite decide_False.
Qed.

Lemma CheckIn_inv v_type v_cat choice entered now tickets :
  NoDup (TicketID <$> tickets) →
  visited_implies_sold tickets →
  visited_implies_sold (CheckIn v_type v_cat choice entered now tickets).2.
Proof.
  intros Hnd Hinv.
  destruct (elig v_type v_cat tickets !! choice) as [tid|] eqn:Hch.
  - destruct (CheckIn_first _ _ _ entered now _ _ Hch)
      as (idx & r & Hfirst & ->).
    destruct (decide _); [|done]. simpl.
    apply visited_implies_sold_insert; [done|]. intros _. simpl.
    destruct (elig_row _ _ _ _ _ Hch) as (r0 & Hin & Hid & _ & _ & Hsold & _).
    apply list_elem_of_lookup_1 in Hin as [i0 Hi0].
    pose proof (first_with_NoDup _ _ _ _ Hnd Hi0 Hid) as Hfirst0.
    by destruct (first_with_unique _ _ _ _ _ _ Hfirst Hfirst0) as [_ ->].
  - unfold CheckIn. by rewrite Hch.
Qed.

(** *** The frame of the bulk upload *)






(** *** An upload row that finds nothing to sell *)





End OpsFacts.

(** ** The invariant [Visited] implies [Sold] *)

(** C1, as the code has it: a table in which every visited row is sold
    stays so after one Sell, BulkSell or Reset, whatever the inputs and
    also with repeated ids; after one CheckIn it stays so when the ids of
    the table are pairwise different. *)
Theorem visited_implies_sold_preserved (tickets : list Ticket) :
  Ops.visited_implies_sold tickets →
  (∀ s_type s_cat choice cust now,
     Ops.visited_implies_sold
       (Ops.Sell s_type s_cat choice cust now tickets).2)
  ∧ (∀ clock up_df,
     Ops.visited_implies_sold (Ops.BulkSell clock up_df tickets).2)
  ∧ (∀ admin_pass,
     Ops.visited_implies_sold (Ops.Reset admin_pass tickets).2)
  ∧ (NoDup (TicketID <$> tickets) →
     ∀ v_type v_cat choice entered now,
       Ops.visited_implies_sold
         (Ops.CheckIn v_type v_cat choice entered now tickets).2).
Proof.
  intros Hinv. split_and!.
  - intros. by apply Sell_inv.
  - intros. by apply bulk_loop_inv.
  - intros. by apply Reset_inv.
  - intros Hnd **. by apply CheckIn_inv.
Qed.

Lemma visited_implies_sold_preserved_witness :
  let t := [mkTicket "0001" "Public" "Gold" (CInt 1) 2 true true "Ann" 2 None;
            mkTicket "0002" "Public" "Gold" (CInt 1) 2 true false "Bob" 0 None]
  in
  Ops.visited_implies_sold t
  ∧ NoDup (TicketID <$> t)
  ∧ Ops.visited_implies_sold (Ops.CheckIn "Public" "Gold" 0 2 "10:00" t).2
  ∧ Ops.visited_implies_sold (Ops.Sell "Public" "Gold" 0 "Eve" "10:00" t).2.
Proof.
  intros t.
  assert (Hinv : Ops.visited_implies_sold t).
  { unfold Ops.visited_implies_sold, t. repeat constructor. }
  assert (Hnd : NoDup (TicketID <$> t)).
  { refine (bool_decide_unpack _ _). vm_compute. exact I. }
  destruct (visited_implies_sold_preserved t Hinv)
    as (Hsell & _ & _ & Hcheckin).
  split_and!; [exact Hinv|exact Hnd|by apply Hcheckin|by apply Hsell].
Defined.

(** C1 as worded fails when ids repeat: the sold, unvisited row offers the
    id, the first row bearing it is unsold, and CheckIn marks that one as
    visited. *)
Lemma CheckIn_repeated_id_breaks_invariant :
  let t := [mkTicket "0001" "Public" "Gold" (CInt 1) 2 false false "" 0 None;
            mkTicket "0001" "Public" "Gold" (CInt 1) 2 true false "Bob" 0 None]
  in
  Ops.visited_implies_sold t
  ∧ Ops.CheckIn "Public" "Gold" 0 1 "10:00" t
    = (Saved,
       [mkTicket "0001" "Public" "Gold" (CInt 1) 2 false true "" 1
                 (Some "10:00");
        mkTicket "0001" "Public" "Gold" (CInt 1) 2 true false "Bob" 0 None])
  ∧ ¬ Ops.visited_implies_sold (Ops.CheckIn "Public" "Gold" 0 1 "10:00" t).2
  ∧ ¬ (∀ tickets v_type v_cat choice entered now,
         Ops.visited_implies_sold tickets →
         Ops.visited_implies_sold
           (Ops.CheckIn v_type v_cat choice entered now tickets).2).
Proof.
  intros t.
  assert (Hinv : Ops.visited_implies_sold t).
  { unfold Ops.visited_implies_sold, t. repeat constructor; discriminate. }
  assert (Hbad : ¬ Ops.visited_implies_sold
                   (Ops.CheckIn "Public" "Gold" 0 1 "10:00" t).2).
  { intros H. apply Forall_cons in H as [H _]. by specialize (H eq_refl). }
  split_and!; [done..|].
  intros H. exact (Hbad (H t _ _ _ _ _ Hinv)).
Qed.

(** ** Sell *)

(** C2: when every row bearing the id is sold already, the code of the
    sale leaves the [Sold] column as it was, and no sale form offers the
    id; and after any sale of an id, a second one for the same id leaves
    the [Sold] column as the first left it. *)
Theorem Sell_sold_id_keeps_Sold_column
    (tid cust now : string) (tickets : list Ticket) :
  ((∀ r, r ∈ tickets → TicketID r = tid → Sold r = true) →
     Sold <$> (Ops.confirm_sale tid cust now tickets).2 = Sold <$> tickets
     ∧ ∀ s_type s_cat, tid ∉ Ops.avail s_type s_cat tickets)
  ∧ (∀ cust' now',
       Sold <$> (Ops.confirm_sale tid cust' now'
                   (Ops.confirm_sale tid cust now tickets).2).2
       = Sold <$> (Ops.confirm_sale tid cust now tickets).2).
Proof.
  assert (Hcol : ∀ c n t,
    (∀ idx r, Ops.first_with tid t idx r → Sold r = true) →
    Sold <$> (Ops.confirm_sale tid c n t).2 = Sold <$> t).
  { intros c n t Hsold.
    destruct (Ops.index_of_TicketID tid t) as [idx|] eqn:Hidx.
    - apply index_of_TicketID_Some in Hidx as [r Hfirst].
      rewrite (confirm_sale_first _ c n _ _ _ Hfirst). simpl.
      rewrite list_fmap_insert. apply list_insert_id.
      pose proof (Hsold _ _ Hfirst) as Hs. destruct Hfirst as (Hr & _).
      rewrite list_lookup_fmap, Hr. simpl. by rewrite Hs.
    - rewrite confirm_sale_absent; [done|].
      by apply index_of_TicketID_None. }
  split.
  - intros Hsold. split.
    + apply Hcol. intros idx r (Hr & Hid & _).
      apply Hsold; [|done]. by eapply list_elem_of_lookup_2.
    + intros s_type s_cat Hin. apply list_elem_of_lookup_1 in Hin as [ch Hch].
      destruct (avail_row _ _ _ _ _ Hch) as (r & Hr & Hid & _ & _ & Hunsold).
      specialize (Hsold r Hr Hid). congruence.
  - intros cust' now'. apply Hcol. intros idx r Hfirst.
    destruct (Ops.index_of_TicketID tid tickets) as [i0|] eqn:Hidx.
    + apply index_of_TicketID_Some in Hidx as [r0 Hfirst0].
      rewrite (confirm_sale_first _ cust now _ _ _ Hfirst0) in Hfirst.
      simpl in Hfirst.
      assert (Ops.first_with tid (<[i0 := Ops.sold_to cust now r0]> tickets)
                i0 (Ops.sold_to cust now r0)) as Hnew.
      { destruct Hfirst0 as (Hr0 & Hid0 & Hleast). split_and!.
        - apply list_lookup_insert_eq. by eapply lookup_lt_Some.
        - done.
        - intros j y Hj Hlt. rewrite list_lookup_insert_ne in Hj by lia.
          by eapply Hleast. }
      by destruct (first_with_unique _ _ _ _ _ _ Hfirst Hnew) as [_ ->].
    + destruct Hfirst as (Hr & Hid & _).
      rewrite confirm_sale_absent in Hr
        by by apply index_of_TicketID_None.
      simpl in Hr. rewrite index_of_TicketID_None in Hidx.
      destruct (Hidx r); [by eapply list_elem_of_lookup_2|done].
Qed.

Lemma Sell_sold_id_keeps_Sold_column_witness :
  let t := [mkTicket "0001" "Public" "Gold" (CInt 1) 2 true false "Ann" 0 None;
            mkTicket "0002" "Public" "Gold" (CInt 1) 2 false false "" 0 None]
  in
  (∀ r, r ∈ t → TicketID r = "0001" → Sold r = true)
  ∧ Sold <$> (Ops.confirm_sale "0001" "Eve" "10:00" t).2 = Sold <$> t.
Proof.
  intros t.
  assert (Hsold : ∀ r, r ∈ t → TicketID r = "0001" → Sold r = true).
  { intros r Hr Hid. unfold t in Hr.
    apply elem_of_cons in Hr as [->|Hr]; [reflexivity|].
    apply elem_of_cons in Hr as [->|Hr]; [discriminate Hid|].
    by apply elem_of_nil in Hr. }
  split; [exact Hsold|].
  exact (proj1 (proj1 (Sell_sold_id_keeps_Sold_column "0001" "Eve" "10:00" t)
                  Hsold)).
Defined.

(** ** Bulk upload *)



(** ** Check-in *)

(** C8: a check-in through the form, for an id offered because a sold,
    unvisited row bears it, reaches the first row bearing the id.  With the
    entered count within 1 and that row's [Admit], only that row changes:
    it gets [Visited] true and [Visitor_Seats] equal to the count, which is
    then between 0 and the row's [Admit].  With the count outside that
    range nothing changes.  With pairwise different ids the row reached is
    the sold, unvisited one. *)
Theorem CheckIn_visitor_seats
    (v_type v_cat : string) (choice : nat) (entered : Z) (now : string)
    (tickets : list Ticket) (tid : string) :
  Ops.elig v_type v_cat tickets !! choice = Some tid →
  ∃ idx r, Ops.first_with tid tickets idx r
    ∧ (1 ≤ entered ≤ Admit r →
         ∃ r', Ops.CheckIn v_type v_cat choice entered now tickets
               = (Saved, <[idx := r']> tickets)
           ∧ (<[idx := r']> tickets) !! idx = Some r'
           ∧ Visited r' = true
           ∧ Visitor_Seats r' = entered
           ∧ 0 ≤ Visitor_Seats r' ≤ Admit r'
           ∧ Admit r' = Admit r)
    ∧ (¬ (1 ≤ entered ≤ Admit r) →
         Ops.CheckIn v_type v_cat choice entered now tickets
         = (NotOffered, tickets))
    ∧ (NoDup (TicketID <$> tickets) → Sold r = true ∧ Visited r = false).
Proof.
  intros Hch.
  destruct (CheckIn_first _ _ _ entered now _ _ Hch)
    as (idx & r & Hfirst & Hrun).
  exists idx, r. split_and!; [done|..].
  - intros Hrange. rewrite decide_True in Hrun by done.
    exists (Ops.checked_in entered now r). split_and!; try done.
    + apply list_lookup_insert_eq. destruct Hfirst as (Hr & _).
      by eapply lookup_lt_Some.
    + simpl. lia.
    + simpl. lia.
  - intros Hout. by rewrite decide_False in Hrun.
  - intros Hnd.
    destruct (elig_row _ _ _ _ _ Hch)
      as (r0 & Hin & Hid & _ & _ & Hsold & Hunvisited).
    apply list_elem_of_lookup_1 in Hin as [i0 Hi0].
    pose proof (first_with_NoDup _ _ _ _ Hnd Hi0 Hid) as Hfirst0.
    by destruct (first_with_unique _ _ _ _ _ _ Hfirst Hfirst0) as [_ ->].
Qed.

Lemma CheckIn_visitor_seats_witness :
  let t := [mkTicket "0001" "Public" "Gold" (CInt 1) 3 true false "Ann" 0 None]
  in
  Ops.elig "Public" "Gold" t !! 0%nat = Some "0001"
  ∧ ∃ idx r, Ops.first_with "0001" t idx r
      ∧ (1 ≤ 2 ≤ Admit r →
         ∃ r', Ops.CheckIn "Public" "Gold" 0 2 "10:00" t
               = (Saved, <[idx := r']> t)
           ∧ (<[idx := r']> t) !! idx = Some r'
           ∧ Visited r' = true
           ∧ Visitor_Seats r' = 2
           ∧ 0 ≤ Visitor_Seats r' ≤ Admit r'
           ∧ Admit r' = Admit r)
      ∧ (¬ (1 ≤ 2 ≤ Admit r) →
         Ops.CheckIn "Public" "Gold" 0 2 "10:00" t = (NotOffered, t))
      ∧ (NoDup (TicketID <$> t) → Sold r = true ∧ Visited r = false).
Proof.
  intros t. split; [reflexivity|].
  exact (CheckIn_visitor_seats "Public" "Gold" 0 2 "10:00" t "0001" eq_refl).
Defined.

(** ** How Sell and CheckIn find their row *)

(** C10: the ids offered are those of the unsold rows (Sell) and of the
    sold, unvisited rows (CheckIn) of the chosen type and category; the
    row changed is the first row of the table bearing the selected id,
    whatever its flags.  With a repeated id the row changed can be one
    that is not eligible: an already sold row for Sell, an unsold row for
    CheckIn. *)
Theorem Sell_CheckIn_locate_by_id_only :
  (∀ s_type s_cat tickets tid,
     tid ∈ Ops.avail s_type s_cat tickets ↔
     ∃ r, r ∈ tickets ∧ TicketID r = tid ∧ Type_ r = s_type
          ∧ Category r = s_cat ∧ Sold r = false)
  ∧ (∀ v_type v_cat tickets tid,
     tid ∈ Ops.elig v_type v_cat tickets ↔
     ∃ r, r ∈ tickets ∧ TicketID r = tid ∧ Type_ r = v_type
          ∧ Category r = v_cat ∧ Sold r = true ∧ Visited r = false)
  ∧ (∀ s_type s_cat choice cust now tickets tid,
     Ops.avail s_type s_cat tickets !! choice = Some tid →
     ∃ idx r, Ops.first_with tid tickets idx r
       ∧ Ops.Sell s_type s_cat choice cust now tickets
         = (Saved, <[idx := Ops.sold_to cust now r]> tickets))
  ∧ (∀ v_type v_cat choice entered now tickets tid,
     Ops.elig v_type v_cat tickets !! choice = Some tid →
     ∃ idx r, Ops.first_with tid tickets idx r
       ∧ (1 ≤ entered ≤ Admit r →
          Ops.CheckIn v_type v_cat choice entered now tickets
          = (Saved, <[idx := Ops.checked_in entered now r]> tickets)))
  ∧ (∃ tickets r cust now,
       Ops.avail "Public" "Gold" tickets = ["0001"]
       ∧ Ops.first_with "0001" tickets 0 r ∧ Sold r = true
       ∧ Ops.Sell "Public" "Gold" 0 cust now tickets
         = (Saved, <[0%nat := Ops.sold_to cust now r]> tickets))
  ∧ (∃ tickets r entered now,
       Ops.elig "Public" "Gold" tickets = ["0001"]
       ∧ Ops.first_with "0001" tickets 0 r ∧ Sold r = false
       ∧ Ops.CheckIn "Public" "Gold" 0 entered now tickets
         = (Saved, <[0%nat := Ops.checked_in entered now r]> tickets)).
Proof.
  split_and!.
  - intros s_type s_cat tickets tid. unfold Ops.avail.
    rewrite list_elem_of_fmap. setoid_rewrite list_elem_of_filter. split.
    + intros (r & -> & (?&?&?) & ?). exists r. by split_and!.
    + intros (r & ? & ? & ? & ? & ?). exists r. by split_and!.
  - intros v_type v_cat tickets tid. unfold Ops.elig.
    rewrite list_elem_of_fmap. setoid_rewrite list_elem_of_filter. split.
    + intros (r & -> & (?&?&?&?) & ?). exists r. by split_and!.
    + intros (r & ? & ? & ? & ? & ? & ?). exists r. by split_and!.
  - intros. by apply Sell_first.
  - intros v_type v_cat choice entered now tickets tid Hch.
    destruct (CheckIn_first _ _ _ entered now _ _ Hch)
      as (idx & r & Hfirst & Hrun).
    exists idx, r. split; [done|]. intros Hrange.
    by rewrite decide_True in Hrun.
  - exists [mkTicket "0001" "Public" "Gold" (CInt 1) 2 true false "Ann" 0 None;
            mkTicket "0001" "Public" "Gold" (CInt 1) 2 false false "" 0 None],
           (mkTicket "0001" "Public" "Gold" (CInt 1) 2 true false "Ann" 0 None),
           "Eve", "10:00".
    split_and!; [done| |done|done].
    split_and!; [done..|]. intros j y _ Hlt. lia.
  - exists [mkTicket "0001" "Public" "Gold" (CInt 1) 2 false false "" 0 None;
            mkTicket "0001" "Public" "Gold" (CInt 1) 2 true false "Bob" 0 None],
           (mkTicket "0001" "Public" "Gold" (CInt 1) 2 false false "" 0 None),
           1, "10:00".
    split_and!; [done| |done|done].
    split_and!; [done..|]. intros j y _ Hlt. lia.
Qed.

Lemma Sell_CheckIn_locate_by_id_only_witness :
  let t := [mkTicket "0001" "Public" "Gold" (CInt 1) 2 true false "Ann" 0 None;
            mkTicket "0001" "Public" "Gold" (CInt 1) 2 false false "" 0 None]
  in
  Ops.avail "Public" "Gold" t !! 0%nat = Some "0001"
  ∧ ∃ idx r, Ops.first_with "0001" t idx r
      ∧ Ops.Sell "Public" "Gold" 0 "Eve" "10:00" t
        = (Saved, <[idx := Ops.sold_to "Eve" "10:00" r]> t).
Proof.
  intros t. split; [reflexivity|].
  exact (proj1 (proj2 (proj2 Sell_CheckIn_locate_by_id_only))
           "Public" "Gold" 0%nat "Eve" "10:00" t "0001" eq_refl).
Defined.

(** ** The custom sort *)

Section SortFacts.
Import Aggregator.
Context {A : Type}.
Implicit Types (get : A → cell) (df out : list A) (keyed : list (Z * A)).

Global Instance key_le_trans : Transitive (@key_le A).
Proof. intros p q r. unfold key_le. lia. Qed.

Global Instance key_le_total : Total (@key_le A).
Proof. intros p q. unfold key_le. lia. Qed.









End SortFacts.




(** ** The summary table *)

Section AggregatorFacts.
Import Aggregator.





End AggregatorFacts.




(** * Further properties of the code *)

(** ** Strings: padding, cutting, printing and reading numbers *)

Section StringFacts.
Import Normalizer Aggregator Chars.

Lemma length_zeros n : String.length (zeros n) = n.
Proof. induction n as [|n IH]; [done|]. simpl. by rewrite IH. Qed.

Lemma length_append (s t : string) :
  String.length (s +:+ t) = (String.length s + String.length t)%nat.
Proof.
  induction s as [|c s IH]; [done|].
  change (S (String.length (s +:+ t)) = S (String.length s + String.length t)).
  by rewrite IH.
Qed.

Lemma zfill_length width s :
  String.length (zfill width s) = Nat.max width (String.length s).
Proof.
  unfold zfill. destruct (Nat.leb_spec width (String.length s)) as [Hle|Hlt].
  - lia.
  - destruct s as [|c s].
    + rewrite length_zeros. simpl. lia.
    + destruct (_ || _).
      * simpl in *. rewrite length_append, length_zeros. lia.
      * rewrite length_append, length_zeros. simpl in *. lia.
  Qed.

Lemma zfill_fits width s :
  (width ≤ String.length s)%nat → zfill width s = s.
Proof.
  intros Hle. unfold zfill.
  by destruct (Nat.leb_spec width (String.length s)); [|lia].
Qed.

Lemma str_all_append P s t :
  str_all P (s +:+ t) = str_all P s && str_all P t.
Proof.
  induction s as [|c s IH]; [done|].
  change (P c && str_all P (s +:+ t) = P c && str_all P s && str_all P t).
  rewrite IH. by destruct (P c).
Qed.

Lemma str_all_impl (P Q : ascii → bool) s :
  (∀ c, P c = true → Q c = true) → str_all P s = true → str_all Q s = true.
Proof.
  intros HPQ. induction s as [|c s IH]; [done|]. simpl.
  intros [Hc Hs]%andb_true_iff. by rewrite (HPQ _ Hc), IH.
Qed.

Lemma str_all_zeros n : str_all is_digit (zeros n) = true.
Proof. induction n as [|n IH]; [done|]. simpl. by rewrite IH. Qed.

(** A string without ["."] is its own cut. *)
Lemma split_dot_0_no_dot s : str_all not_dot s = true → split_dot_0 s = s.
Proof.
  induction s as [|c s IH]; [done|]. simpl. unfold not_dot at 1.
  intros [Hc Hs]%andb_true_iff. apply negb_true_iff in Hc.
  by rewrite Hc, IH.
Qed.

Lemma split_dot_0_not_dot s : str_all not_dot (split_dot_0 s) = true.
Proof.
  induction s as [|c s IH]; [done|]. simpl.
  destruct (Ascii.eqb c ".") eqn:Hc; [done|]. simpl. unfold not_dot at 1.
  by rewrite Hc, IH.
Qed.

Lemma zfill_not_dot width s :
  str_all not_dot s = true → str_all not_dot (zfill width s) = true.
Proof.
  intros Hs. unfold zfill. destruct (_ <=? _)%nat; [done|].
  assert (Hz : ∀ n, str_all not_dot (zeros n) = true).
  { intros n. induction n as [|n IH]; [done|]. simpl. by rewrite IH. }
  destruct s as [|c s]; [done|].
  simpl in Hs. apply andb_true_iff in Hs as [Hc Hs].
  destruct (_ || _).
  - simpl. by rewrite Hc, str_all_append, Hz, Hs.
  - rewrite str_all_append, Hz. simpl. by rewrite Hc, Hs.
Qed.

Lemma is_digit_range c :
  is_digit c = true → (48 ≤ nat_of_ascii c ≤ 57)%nat.
Proof.
  unfold is_digit, digit_of.
  destruct (Nat.leb_spec 48 (nat_of_ascii c)),
           (Nat.leb_spec (nat_of_ascii c) 57); simpl; done || lia.
Qed.

Lemma is_digit_not (c d : ascii) :
  is_digit c = true → is_digit d = false → Ascii.eqb c d = false.
Proof.
  intros Hc Hd. destruct (Ascii.eqb_spec c d) as [->|]; [|done]. congruence.
Qed.

Lemma is_digit_no_space c : is_digit c = true → no_space c = true.
Proof.
  intros Hc%is_digit_range. unfold no_space, is_space.
  destruct (Nat.leb_spec 9 (nat_of_ascii c)),
           (Nat.leb_spec (nat_of_ascii c) 13),
           (Nat.leb_spec 28 (nat_of_ascii c)),
           (Nat.leb_spec (nat_of_ascii c) 32); simpl; done || lia.
Qed.

Lemma is_digit_not_dot c : is_digit c = true → not_dot c = true.
Proof. intros Hc. unfold not_dot. by rewrite (is_digit_not c "."). Qed.

Lemma lstrip_no_space s : str_all no_space s = true → lstrip s = s.
Proof.
  destruct s as [|c s]; [done|]. simpl. unfold no_space at 1.
  intros [Hc _]%andb_true_iff. apply negb_true_iff in Hc. by rewrite Hc.
Qed.

Lemma rstrip_no_space s : str_all no_space s = true → rstrip s = s.
Proof.
  induction s as [|c s IH]; [done|]. simpl. unfold no_space at 1.
  intros [Hc Hs]%andb_true_iff. apply negb_true_iff in Hc.
  rewrite (IH Hs), Hc. by destruct s.
Qed.

Lemma pretty_N_char_digit m :
  (m < 10)%N →
  digit_of (pretty_N_char m) = Some (Z.of_N m)
  ∧ is_digit (pretty_N_char m) = true.
Proof.
  intros Hm.
  assert (m = 0 ∨ m = 1 ∨ m = 2 ∨ m = 3 ∨ m = 4 ∨ m = 5 ∨ m = 6 ∨ m = 7
          ∨ m = 8 ∨ m = 9)%N as Hcases by lia.
  repeat (destruct Hcases as [->|Hcases]; [done|]). by subst.
Qed.

(** The digits of a positive number are digits. *)
Lemma pretty_N_go_digits x s :
  str_all is_digit s = true → str_all is_digit (pretty_N_go x s) = true.
Proof.
  revert s. induction (N.lt_wf_0 x) as [x _ IH]; intros s Hs.
  assert (x = 0 ∨ 0 < x)%N as [->|Hpos] by lia; [done|].
  rewrite pretty_N_go_step by done. apply IH; [by apply N.div_lt|].
  simpl. rewrite Hs.
  by destruct (pretty_N_char_digit (x `mod` 10)%N) as [_ ->];
    [apply N.mod_lt|].
Qed.

(** Reading the printed digits of [x] appends [x] to what was read. *)
Lemma digits_pretty_N_go x :
  (0 < x)%N →
  ∃ p, ∀ b acc s,
    digits b acc (pretty_N_go x s) = digits true (acc * p + Z.of_N x) s.
Proof.
  induction (N.lt_wf_0 x) as [x _ IH]. intros Hpos.
  assert (Hm : (x `mod` 10 < 10)%N) by by apply N.mod_lt.
  destruct (pretty_N_char_digit _ Hm) as [Hdig Hisd].
  assert (Hus : Ascii.eqb (pretty_N_char (x `mod` 10)) "_" = false)
    by by apply is_digit_not.
  pose proof (N.div_mod x 10 ltac:(done)) as Hx.
  assert (x `div` 10 = 0 ∨ 0 < x `div` 10)%N as [Hq|Hq] by lia.
  - exists 10. intros b acc s.
    rewrite pretty_N_go_step, Hq, pretty_N_go_0 by done.
    simpl. rewrite Hus, Hdig. f_equal. lia.
  - destruct (IH (x `div` 10)%N) as [p Hp]; [by apply N.div_lt|done|].
    exists (10 * p). intros b acc s.
    rewrite pretty_N_go_step, Hp by done.
    simpl. rewrite Hus, Hdig. f_equal. lia.
Qed.

Lemma digits_zeros n b s :
  digits b 0 (zeros (S n) +:+ s) = digits true 0 s.
Proof.
  revert b. induction n as [|n IH]; intros b; [done|].
  change (digits b 0 (String "0" (zeros (S n) +:+ s)) = digits true 0 s).
  simpl digits at 1. exact (IH true).
Qed.

(** How an integer prints. *)
Lemma pretty_Z_cases (z : Z) :
  (z = 0 ∧ pretty z = "0")
  ∨ (0 < z ∧ pretty z = pretty_N_go (Z.to_N z) "")
  ∨ (z < 0 ∧ pretty z = String "-" (pretty_N_go (Z.to_N (- z)) "")).
Proof.
  destruct z as [|q|q].
  - by left.
  - right; left. split; [lia|]. done.
  - right; right. split; [lia|]. done.
Qed.

(** The digits of a positive number, read with any amount of zeros in
    front. *)
Lemma digits_zeros_pretty x n b :
  (0 < x)%N →
  digits b 0 (zeros n +:+ pretty_N_go x "") = Some (Z.of_N x).
Proof.
  intros Hpos. destruct (digits_pretty_N_go x Hpos) as [p Hp].
  destruct n as [|n].
  - change (zeros 0 +:+ pretty_N_go x "") with (pretty_N_go x "").
    rewrite Hp. simpl. f_equal; lia.
  - rewrite digits_zeros, Hp. simpl. f_equal; lia.
Qed.

(** [int] reads a run of zeros and digits, with or without a sign. *)
Lemma int_of_str_digits (d : string) (v : Z) :
  str_all is_digit d = true →
  (∀ b, digits b 0 d = Some v) →
  int_of_str d = Some v ∧ int_of_str (String "-" d) = Some (- v).
Proof.
  intros Hd Hv.
  pose proof (str_all_impl _ _ _ is_digit_no_space Hd) as Hns.
  assert (Hne : d ≠ "").
  { intros ->. by specialize (Hv false). }
  unfold int_of_str. split.
  - rewrite lstrip_no_space, rstrip_no_space by done.
    destruct d as [|c d]; [done|].
    simpl in Hd. apply andb_true_iff in Hd as [Hc _].
    by rewrite (is_digit_not c "-"), (is_digit_not c "+"), (Hv false).
  - assert (str_all no_space (String "-" d) = true) as Hns'
      by (simpl; by rewrite Hns).
    rewrite lstrip_no_space, rstrip_no_space by done.
    simpl. by rewrite (Hv false).
Qed.

(** An integer prints as a run of digits, after a ["-"] when negative. *)
Lemma pretty_Z_digits (z : Z) :
  ∃ d, str_all is_digit d = true
    ∧ (∀ n b, digits b 0 (zeros n +:+ d) = Some (Z.abs z))
    ∧ pretty z = if decide (z < 0) then String "-" d else d.
Proof.
  destruct (pretty_Z_cases z) as [[-> Hp]|[[Hz Hp]|[Hz Hp]]].
  - exists "0". split_and!; [done| |done].
    intros [|n] b; [done|]. by rewrite digits_zeros.
  - exists (pretty_N_go (Z.to_N z) ""). split_and!.
    + by apply pretty_N_go_digits.
    + intros n b. rewrite digits_zeros_pretty by lia. f_equal. lia.
    + by rewrite decide_False by lia.
  - exists (pretty_N_go (Z.to_N (- z)) ""). split_and!.
    + by apply pretty_N_go_digits.
    + intros n b. rewrite digits_zeros_pretty by lia. f_equal. lia.
    + by rewrite decide_True by lia.
Qed.

Lemma signed_digits d : str_all is_digit d = true → signed d = false.
Proof.
  destruct d as [|c d]; [done|]. simpl.
  intros [Hc _]%andb_true_iff.
  by rewrite (is_digit_not c "+"), (is_digit_not c "-").
Qed.

(** Zero filling the printed form of an integer: zeros between the sign
    and the digits. *)
Lemma zfill_pretty width (z : Z) :
  ∃ d, str_all is_digit d = true
    ∧ (∀ b, digits b 0 d = Some (Z.abs z))
    ∧ zfill width (pretty z) = if decide (z < 0) then String "-" d else d.
Proof.
  destruct (pretty_Z_digits z) as (d & Hd & Hv & Hp).
  rewrite zfill_cases, Hp. destruct (decide (z < 0)) as [Hz|Hz].
  - eexists (zeros _ +:+ d). split_and!; [| |done].
    + by rewrite str_all_append, str_all_zeros, Hd.
    + intros b. apply Hv.
  - rewrite signed_digits by done.
    eexists (zeros _ +:+ d). split_and!; [| |done].
    + by rewrite str_all_append, str_all_zeros, Hd.
    + intros b. apply Hv.
Qed.

Lemma int_of_str_signed_digits d (z : Z) :
  str_all is_digit d = true →
  (∀ b, digits b 0 d = Some (Z.abs z)) →
  int_of_str (if decide (z < 0) then String "-" d else d) = Some z.
Proof.
  intros Hd Hv. destruct (int_of_str_digits d _ Hd Hv) as [Hpos Hneg].
  destruct (decide (z < 0)).
  - rewrite Hneg. f_equal. lia.
  - rewrite Hpos. f_equal. lia.
Qed.

Lemma int_of_str_zfill_pretty width (z : Z) :
  int_of_str (zfill width (pretty z)) = Some z.
Proof.
  destruct (zfill_pretty width z) as (d & Hd & Hv & ->).
  by apply int_of_str_signed_digits.
Qed.

Lemma pretty_Z_not_dot (z : Z) : str_all not_dot (pretty z) = true.
Proof.
  destruct (pretty_Z_digits z) as (d & Hd & _ & ->).
  pose proof (str_all_impl _ _ _ is_digit_not_dot Hd) as Hnd.
  destruct (decide (z < 0)); [|done]. simpl. by rewrite Hnd.
Qed.

Lemma pretty_N_go_length k x s :
  (x < 10 ^ N.of_nat k)%N →
  (String.length (pretty_N_go x s) ≤ k + String.length s)%nat.
Proof.
  revert x s. induction k as [|k IH]; intros x s Hx.
  - assert (x = 0)%N as -> by (simpl in Hx; lia). rewrite pretty_N_go_0. lia.
  - assert (x = 0 ∨ 0 < x)%N as [->|Hpos] by lia.
    { rewrite pretty_N_go_0. lia. }
    rewrite pretty_N_go_step by done.
    etrans; [apply IH|simpl; lia].
    rewrite Nat2N.inj_succ, N.pow_succ_r' in Hx.
    apply N.Div0.div_lt_upper_bound. lia.
Qed.
End StringFacts.

(** X1: a loaded ticket id is never shorter than 4 characters: its length
    is the larger of 4 and the length of the cut string form; and it never
    holds a ["."]. *)
Theorem clean_TicketID_length (x : cell) :
  String.length (Normalizer.clean_TicketID x)
  = Nat.max 4 (String.length (split_dot_0 (astype_str x)))
  ∧ Chars.str_all Chars.not_dot (Normalizer.clean_TicketID x) = true.
Proof.
  unfold Normalizer.clean_TicketID. split.
  - apply zfill_length.
  - apply zfill_not_dot, split_dot_0_not_dot.
Qed.

(** X2: cleaning is stable: an id that went through the load-time cleaning
    is left as it is by a second cleaning and by the padding of the bulk
    upload, so an upload that carries an id as loaded finds it. *)
Theorem clean_TicketID_stable (x : cell) :
  Normalizer.clean_TicketID (CStr (Normalizer.clean_TicketID x))
  = Normalizer.clean_TicketID x
  ∧ Normalizer.bulk_TicketID (CStr (Normalizer.clean_TicketID x))
    = Normalizer.clean_TicketID x.
Proof.
  pose proof (zfill_length 4 (split_dot_0 (astype_str x))) as Hlen.
  pose proof (zfill_not_dot 4 _ (split_dot_0_not_dot (astype_str x))) as Hdot.
  fold (Normalizer.clean_TicketID x) in Hlen, Hdot.
  assert (Hfit : zfill 4 (Normalizer.clean_TicketID x)
                 = Normalizer.clean_TicketID x).
  { apply zfill_fits. rewrite Hlen. lia. }
  split; [|exact Hfit].
  unfold Normalizer.clean_TicketID at 1. simpl astype_str.
  by rewrite split_dot_0_no_dot.
Qed.


(** X3: on whole-number cells the bulk padding and the load-time cleaning
    give the same id; the number can be read back from the id with [int],
    so two different numbers never get the same id. *)
Theorem clean_TicketID_int (z : Z) :
  Normalizer.bulk_TicketID (CInt z) = Normalizer.clean_TicketID (CInt z)
  ∧ Aggregator.int_of_str (Normalizer.clean_TicketID (CInt z)) = Some z
  ∧ ∀ z', Normalizer.clean_TicketID (CInt z)
          = Normalizer.clean_TicketID (CInt z') → z = z'.
Proof.
  assert (Hclean : ∀ y, Normalizer.clean_TicketID (CInt y) = zfill 4 (pretty y)).
  { intros y. unfold Normalizer.clean_TicketID. simpl.
    by rewrite split_dot_0_no_dot by apply pretty_Z_not_dot. }
  assert (Hread : ∀ y, Aggregator.int_of_str (Normalizer.clean_TicketID (CInt y))
                       = Some y).
  { intros y. rewrite Hclean. apply int_of_str_zfill_pretty. }
  split_and!.
  - by rewrite Hclean.
  - apply Hread.
  - intros z' Heq. pose proof (Hread z) as Hz. rewrite Heq, Hread in Hz.
    congruence.
Qed.

Lemma clean_TicketID_int_witness :
  Normalizer.clean_TicketID (CInt 901) = Normalizer.clean_TicketID (CInt 901)
  ∧ 901 = 901.
Proof.
  split; [reflexivity|].
  exact (proj2 (proj2 (clean_TicketID_int 901)) 901 eq_refl).
Defined.

(** X4: a whole-number cell from 0 to 9999 is loaded as exactly 4
    characters, all of them digits. *)
Theorem clean_TicketID_four_digits (z : Z) :
  0 ≤ z ≤ 9999 →
  String.length (Normalizer.clean_TicketID (CInt z)) = 4%nat
  ∧ Chars.str_all Chars.is_digit (Normalizer.clean_TicketID (CInt z)) = true.
Proof.
  intros Hz. unfold Normalizer.clean_TicketID. simpl astype_str.
  rewrite split_dot_0_no_dot by apply pretty_Z_not_dot.
  destruct (zfill_pretty 4 z) as (d & Hd & _ & Hfill).
  rewrite decide_False in Hfill by lia.
  split; [|by rewrite Hfill].
  rewrite zfill_length.
  destruct (pretty_Z_cases z) as [[-> Hp]|[[Hpos Hp]|[Hneg _]]]; [done| |lia].
  rewrite Hp.
  pose proof (pretty_N_go_length 4 (Z.to_N z) "") as Hlen.
  simpl in Hlen. specialize (Hlen ltac:(lia)). lia.
Qed.

Lemma clean_TicketID_four_digits_witness :
  0 ≤ 12 ≤ 9999
  ∧ String.length (Normalizer.clean_TicketID (CInt 12)) = 4%nat.
Proof.
  assert (H : 0 ≤ 12 ≤ 9999) by lia.
  split; [exact H|]. exact (proj1 (clean_TicketID_four_digits 12 H)).
Defined.

(** X5: [int] reads back every printed integer, so a [Seq] cell that holds
    the text of a number sorts exactly like the number. *)
Theorem int_of_str_pretty (z : Z) :
  Aggregator.int_of_str (pretty z) = Some z
  ∧ Aggregator.sort_key (CStr (pretty z)) = Aggregator.sort_key (CInt z).
Proof.
  assert (Hread : Aggregator.int_of_str (pretty z) = Some z).
  { destruct (pretty_Z_digits z) as (d & Hd & Hv & ->).
    apply int_of_str_signed_digits; [done|]. intros b. apply (Hv 0%nat). }
  split; [done|]. simpl.
  destruct (decide (z = 0)) as [->|Hz]; [done|].
  rewrite decide_False; [done|].
  intros Hp. apply Hz. by apply (inj pretty).
Qed.

(** ** When the custom sort raises *)

Section SortErrors.
Import Aggregator.
Context {A : Type}.


End SortErrors.


(** ** Loading *)

Section LoaderFacts.
Import Loader.
Variable to_numeric_str : string → option Z.

Lemma load_all_data_Some tickets_df menu_df tickets menu :
  load_all_data to_numeric_str tickets_df menu_df = Some (tickets, menu) ↔
  tickets_df ≠ [] ∧ menu_df ≠ []
  ∧ tickets = clean_row to_numeric_str <$> tickets_df ∧ menu = menu_df.
Proof.
  unfold load_all_data. destruct tickets_df as [|r rs], menu_df as [|m ms];
    split; try done; try by intros (? & ? & _).
  - by intros [= <- <-].
  - by intros (_ & _ & -> & ->).
Qed.

Lemma filter_none {B : Type} (P : B → Prop) `{∀ x, Decision (P x)} (l : list B) :
  Forall (λ x, ¬ P x) l → filter P l = [].
Proof.
  induction 1 as [|x l Hx _ IH]; [done|]. by rewrite filter_cons_False.
Qed.
End LoaderFacts.



(** X8: when the [TicketID] cells of the sheet are whole numbers, pairwise
    different, the loaded ids are pairwise different. *)
Theorem load_all_data_distinct_ids (to_numeric_str : string → option Z)
    (tickets_df : list Loader.RawTicket) (menu_df : list Loader.MenuEntry)
    (tickets : list Ticket) (menu : list Loader.MenuEntry) :
  Forall (λ r, ∃ z, Loader.r_TicketID r = Loader.RInt z) tickets_df →
  NoDup (Loader.r_TicketID <$> tickets_df) →
  Loader.load_all_data to_numeric_str tickets_df menu_df
  = Some (tickets, menu) →
  NoDup (TicketID <$> tickets).
Proof.
  intros Hint Hnd (_ & _ & -> & _)%load_all_data_Some.
  rewrite <- list_fmap_compose.
  assert (Heq : (TicketID ∘ Loader.clean_row to_numeric_str) <$> tickets_df
    = (Normalizer.clean_TicketID ∘ Loader.raw_cell)
        <$> (Loader.r_TicketID <$> tickets_df)).
  { by rewrite <- list_fmap_compose. }
  rewrite Heq. apply NoDup_fmap_2_strong; [|done].
  intros x y Hx Hy Hxy. rewrite Forall_forall in Hint.
  apply list_elem_of_fmap in Hx as (rx & -> & Hrx).
  apply list_elem_of_fmap in Hy as (ry & -> & Hry).
  destruct (Hint _ Hrx) as [zx Hzx]. destruct (Hint _ Hry) as [zy Hzy].
  rewrite Hzx, Hzy in *. simpl in Hxy. f_equal.
  pose proof (int_of_str_zfill_pretty 4 zx) as Hx.
  pose proof (int_of_str_zfill_pretty 4 zy) as Hy.
  unfold Normalizer.clean_TicketID in Hxy. simpl in Hxy.
  rewrite !split_dot_0_no_dot in Hxy by apply pretty_Z_not_dot.
  rewrite Hxy in Hx. congruence.
Qed.

Lemma load_all_data_distinct_ids_witness :
  let raw := [Loader.mkRaw (Loader.RInt 1) "Public" "Gold" (CInt 1) 2
                Loader.RNaN Loader.RNaN "" Loader.RNaN None;
              Loader.mkRaw (Loader.RInt 2) "Public" "Gold" (CInt 1) 2
                Loader.RNaN Loader.RNaN "" Loader.RNaN None] in
  let menu := [Loader.mkMenu "Public" "Gold" (CInt 1)] in
  ∃ tickets,
    Loader.load_all_data (λ _, None) raw menu = Some (tickets, menu)
    ∧ NoDup (TicketID <$> tickets).
Proof.
  intros raw menu. eexists. split; [reflexivity|].
  apply (load_all_data_distinct_ids (λ _, None) raw menu _ menu).
  - repeat constructor; by eexists.
  - refine (bool_decide_unpack _ _). vm_compute. exact I.
  - reflexivity.
Defined.



(** ** More on the ticket operations *)

Section OpsMore.
Import Ops.
Implicit Types (tickets : list Ticket) (r : Ticket) (tid : string).

(** Replacing a row by one with the same projection keeps the projected
    column. *)
Lemma insert_proj {B : Type} (g : Ticket → B) tickets idx r r' :
  tickets !! idx = Some r → g r' = g r →
  g <$> <[idx := r']> tickets = g <$> tickets.
Proof.
  intros Hidx Hg. rewrite list_fmap_insert. apply list_insert_id.
  by rewrite list_lookup_fmap, Hidx, Hg.
Qed.

(** A filtered column only depends on the columns the filter and the
    column read. *)
Lemma filter_fmap_proj {B C : Type} (g : Ticket → B)
    (Q : Ticket → Prop) `{∀ a, Decision (Q a)} (h : Ticket → C) :
  (∀ a b, g a = g b → (Q a ↔ Q b) ∧ h a = h b) →
  ∀ l1 l2 : list Ticket,
    g <$> l1 = g <$> l2 → h <$> filter Q l1 = h <$> filter Q l2.
Proof.
  intros Hg l1. induction l1 as [|a l1 IH]; intros [|b l2] Heq;
    try done. injection Heq as Hab Hrest.
  destruct (Hg a b Hab) as [HQ Hh]. rewrite !filter_cons.
  destruct (decide (Q a)) as [Ha|Ha], (decide (Q b)) as [Hb|Hb];
    try tauto.
  - rewrite !fmap_cons, Hh. f_equal. by apply IH.
  - by apply IH.
Qed.

(** Every operation either leaves the table alone or replaces rows by
    rows with the same static columns; [g] is any projection that the
    three row changes keep. *)
Lemma Sell_proj {B : Type} (g : Ticket → B) s_type s_cat choice cust now tickets :
  (∀ r, g (sold_to cust now r) = g r) →
  g <$> (Sell s_type s_cat choice cust now tickets).2 = g <$> tickets.
Proof.
  intros Hg.
  destruct (avail s_type s_cat tickets !! choice) as [tid|] eqn:Hch.
  - destruct (Sell_first _ _ _ cust now _ _ Hch)
      as (idx & r & (Hidx & _) & ->).
    by eapply insert_proj.
  - unfold Sell. by rewrite Hch.
Qed.

Lemma CheckIn_proj {B : Type} (g : Ticket → B)
    v_type v_cat choice entered now tickets :
  (∀ r, g (checked_in entered now r) = g r) →
  g <$> (CheckIn v_type v_cat choice entered now tickets).2 = g <$> tickets.
Proof.
  intros Hg.
  destruct (elig v_type v_cat tickets !! choice) as [tid|] eqn:Hch.
  - destruct (CheckIn_first _ _ _ entered now _ _ Hch)
      as (idx & r & (Hidx & _) & ->).
    destruct (decide _); [|done]. by eapply insert_proj.
  - unfold CheckIn. by rewrite Hch.
Qed.

Lemma bulk_loop_proj {B : Type} (g : Ticket → B) clock k up_df tickets :
  (∀ cust now r, g (sold_to cust now r) = g r) →
  g <$> bulk_loop clock k up_df tickets = g <$> tickets.
Proof.
  intros Hg. revert k tickets.
  induction up_df as [|[tid cust] rest IH]; intros k tickets; [done|].
  simpl. rewrite IH.
  destruct (bulk_step_cases tid cust (clock k) tickets)
    as [->|(idx & r & Hidx & _ & _ & ->)]; [done|].
  by eapply insert_proj.
Qed.

Lemma Reset_proj {B : Type} (g : Ticket → B) admin_pass tickets :
  (∀ r, g (cleared r) = g r) →
  g <$> (Reset admin_pass tickets).2 = g <$> tickets.
Proof.
  intros Hg. destruct (decide (admin_pass = reset_password)) as [->|Hne].
  - rewrite Reset_correct_password. simpl. rewrite <- list_fmap_compose.
    apply list_fmap_ext. intros _ r _. apply Hg.
  - unfold Reset. by rewrite decide_False.
Qed.

Lemma elem_of_avail s_type s_cat tickets tid :
  tid ∈ avail s_type s_cat tickets ↔
  ∃ r, r ∈ tickets ∧ TicketID r = tid ∧ Type_ r = s_type
       ∧ Category r = s_cat ∧ Sold r = false.
Proof.
  unfold avail. rewrite list_elem_of_fmap.
  setoid_rewrite list_elem_of_filter. split.
  - intros (r & -> & (?&?&?) & ?). exists r. by split_and!.
  - intros (r & ? & ? & ? & ? & ?). exists r. by split_and!.
Qed.

Lemma elem_of_elig v_type v_cat tickets tid :
  tid ∈ elig v_type v_cat tickets ↔
  ∃ r, r ∈ tickets ∧ TicketID r = tid ∧ Type_ r = v_type
       ∧ Category r = v_cat ∧ Sold r = true ∧ Visited r = false.
Proof.
  unfold elig. rewrite list_elem_of_fmap.
  setoid_rewrite list_elem_of_filter. split.
  - intros (r & -> & (?&?&?&?) & ?). exists r. by split_and!.
  - intros (r & ? & ? & ? & ? & ? & ?). exists r. by split_and!.
Qed.

(** With pairwise different ids, the rows of a table with one row
    replaced by a row of the same id. *)
Lemma elem_of_insert_NoDup tickets idx r r' x :
  NoDup (TicketID <$> tickets) →
  tickets !! idx = Some r → TicketID r' = TicketID r →
  x ∈ <[idx := r']> tickets ↔
  x = r' ∨ (x ∈ tickets ∧ TicketID x ≠ TicketID r).
Proof.
  intros Hnd Hidx Hid. rewrite !list_elem_of_lookup. split.
  - intros [j Hj]. apply list_lookup_insert_Some in Hj as [(_&->&_)|[Hne Hj]];
      [by left|right].
    split; [by exists j|]. intros Heq. apply Hne.
    apply (NoDup_lookup _ _ _ (TicketID r) Hnd); rewrite list_lookup_fmap.
    + by rewrite Hidx.
    + by rewrite Hj; simpl; rewrite Heq.
  - intros [->|[[j Hj] Hne]].
    + exists idx. apply list_lookup_insert_eq. by eapply lookup_lt_Some.
    + exists j. rewrite list_lookup_insert_ne; [done|].
      intros ->. congruence.
Qed.
End OpsMore.

(** X10: the forms never raise: a sale ends [Saved] exactly when the
    choice points into the list of offered ids and is otherwise not
    possible, and a check-in never ends in [IndexError] either; whenever
    an operation does not end [Saved] the table is left as it was.  The
    code under "Confirm Sale", run with an id no row bears, does raise
    [IndexError], before any write. *)
Theorem forms_never_raise
    (s_type s_cat : string) (choice : nat) (cust now : string) (entered : Z)
    (tickets : list Ticket) :
  ((Ops.Sell s_type s_cat choice cust now tickets).1 = Saved
   ↔ (choice < length (Ops.avail s_type s_cat tickets))%nat)
  ∧ ((Ops.Sell s_type s_cat choice cust now tickets).1 ≠ Saved →
     Ops.Sell s_type s_cat choice cust now tickets = (NotOffered, tickets))
  ∧ (Ops.CheckIn s_type s_cat choice entered now tickets).1 ≠ IndexError
  ∧ ((Ops.CheckIn s_type s_cat choice entered now tickets).1 ≠ Saved →
     Ops.CheckIn s_type s_cat choice entered now tickets
     = (NotOffered, tickets))
  ∧ (∀ tid, (∀ r, r ∈ tickets → TicketID r ≠ tid) →
     Ops.confirm_sale tid cust now tickets = (IndexError, tickets)).
Proof.
  split_and!.
  - destruct (Ops.avail s_type s_cat tickets !! choice) as [tid|] eqn:Hch.
    + destruct (Sell_first _ _ _ cust now _ _ Hch) as (idx & r & _ & ->).
      split; [|done]. intros _. by eapply lookup_lt_Some.
    + unfold Ops.Sell. rewrite Hch. split; [done|].
      intros Hlt%lookup_lt_is_Some. rewrite Hch in Hlt. by destruct Hlt.
  - destruct (Ops.avail s_type s_cat tickets !! choice) as [tid|] eqn:Hch.
    + by destruct (Sell_first _ _ _ cust now _ _ Hch) as (idx & r & _ & ->).
    + unfold Ops.Sell. by rewrite Hch.
  - destruct (Ops.elig s_type s_cat tickets !! choice) as [tid|] eqn:Hch.
    + destruct (CheckIn_first _ _ _ entered now _ _ Hch)
        as (idx & r & _ & ->). by destruct (decide _).
    + unfold Ops.CheckIn. by rewrite Hch.
  - destruct (Ops.elig s_type s_cat tickets !! choice) as [tid|] eqn:Hch.
    + destruct (CheckIn_first _ _ _ entered now _ _ Hch)
        as (idx & r & _ & ->). by destruct (decide _).
    + unfold Ops.CheckIn. by rewrite Hch.
  - intros tid Habs. by apply confirm_sale_absent.
Qed.

Lemma forms_never_raise_witness :
  let t := [mkTicket "0001" "Public" "Gold" (CInt 1) 2 true false "Ann" 0 None]
  in
  (Ops.Sell "Public" "Gold" 0 "Eve" "10:00" t).1 ≠ Saved
  ∧ Ops.Sell "Public" "Gold" 0 "Eve" "10:00" t = (NotOffered, t).
Proof.
  intros t.
  assert (H : (Ops.Sell "Public" "Gold" 0 "Eve" "10:00" t).1 ≠ Saved)
    by discriminate.
  split; [exact H|].
  exact (proj1 (proj2 (forms_never_raise "Public" "Gold" 0 "Eve" "10:00" 1 t))
           H).
Defined.

(** X11: no operation adds, drops or reorders rows, and none changes a
    [TicketID], [Type], [Category], [Seq] or [Admit]; so the groups of the
    dashboard and their ticket counts are the same before and after. *)
Theorem operations_keep_static_columns (tickets : list Ticket) :
  let static (r : Ticket) := (TicketID r, Type_ r, Category r, Seq r, Admit r) in
  let same (after : list Ticket) :=
    static <$> after = static <$> tickets
    ∧ Aggregator.Total_Tickets <$> Aggregator.groupby after
      = Aggregator.Total_Tickets <$> Aggregator.groupby tickets in
  (∀ s_type s_cat choice cust now,
     same (Ops.Sell s_type s_cat choice cust now tickets).2)
  ∧ (∀ clock up_df, same (Ops.BulkSell clock up_df tickets).2)
  ∧ (∀ v_type v_cat choice entered now,
     same (Ops.CheckIn v_type v_cat choice entered now tickets).2)
  ∧ (∀ admin_pass, same (Ops.Reset admin_pass tickets).2).
Proof.
  intros static same.
  assert (Hsame : ∀ after, static <$> after = static <$> tickets → same after).
  { intros after Hst. split; [done|].
    assert (Hkeys : Aggregator.key_of <$> after = Aggregator.key_of <$> tickets).
    { apply (f_equal (fmap (λ p : string * string * string * cell * Z,
               Aggregator.mkKey p.1.2 p.1.1.1.2 p.1.1.2 p.2))) in Hst.
      by rewrite <- !list_fmap_compose in Hst. }
    unfold Aggregator.groupby. rewrite <- !list_fmap_compose, Hkeys.
    apply list_fmap_ext. intros _ k _. simpl. f_equal.
    rewrite !length_fmap. unfold Aggregator.group_rows.
    rewrite <- (length_fmap Aggregator.key_of (filter _ after)).
    rewrite <- (length_fmap Aggregator.key_of (filter _ tickets)).
    f_equal.
    apply (filter_fmap_proj Aggregator.key_of); [|done].
    intros a b Hab. by rewrite Hab. }
  split_and!; intros; apply Hsame.
  - by apply Sell_proj.
  - by apply bulk_loop_proj.
  - by apply CheckIn_proj.
  - by apply Reset_proj.
Qed.

(** X12: with pairwise different ids, a sale through the form sells the
    very ticket that was offered (unsold, of the chosen type and category);
    afterwards no sale form offers that id again, every other id is on
    offer exactly as before, and, if every visited ticket was sold, the
    ticket is now offered for check-in under the same type and category. *)
Theorem Sell_distinct_ids
    (s_type s_cat : string) (choice : nat) (cust now : string)
    (tickets : list Ticket) (tid : string) :
  NoDup (TicketID <$> tickets) →
  Ops.avail s_type s_cat tickets !! choice = Some tid →
  let after := (Ops.Sell s_type s_cat choice cust now tickets).2 in
  (∃ idx r, tickets !! idx = Some r ∧ TicketID r = tid ∧ Type_ r = s_type
      ∧ Category r = s_cat ∧ Sold r = false
      ∧ after = <[idx := Ops.sold_to cust now r]> tickets)
  ∧ (∀ ty cat, tid ∉ Ops.avail ty cat after)
  ∧ (∀ ty cat tid', tid' ≠ tid →
       (tid' ∈ Ops.avail ty cat after ↔ tid' ∈ Ops.avail ty cat tickets))
  ∧ (Ops.visited_implies_sold tickets → tid ∈ Ops.elig s_type s_cat after).
Proof.
  intros Hnd Hch after.
  destruct (Sell_first _ _ _ cust now _ _ Hch) as (idx & r & Hfirst & Hrun).
  destruct (avail_row _ _ _ _ _ Hch) as (r0 & Hin & Hid & Hty & Hcat & Hunsold).
  apply list_elem_of_lookup_1 in Hin as [i0 Hi0].
  pose proof (first_with_NoDup _ _ _ _ Hnd Hi0 Hid) as Hfirst0.
  destruct (first_with_unique _ _ _ _ _ _ Hfirst Hfirst0) as [-> ->].
  assert (Hafter : after = <[i0 := Ops.sold_to cust now r0]> tickets)
    by (unfold after; by rewrite Hrun).
  assert (Hmem : ∀ x, x ∈ after ↔
            x = Ops.sold_to cust now r0 ∨ (x ∈ tickets ∧ TicketID x ≠ tid)).
  { intros x. rewrite Hafter, <- Hid. by apply elem_of_insert_NoDup. }
  split_and!.
  - exists i0, r0. by split_and!.
  - intros ty cat (x & Hx & Hxid & _ & _ & Hxs)%elem_of_avail.
    apply Hmem in Hx as [->|[_ Hne]]; [done|congruence].
  - intros ty cat tid' Hne. rewrite !elem_of_avail. split.
    + intros (x & Hx & Hxid & ? & ? & ?).
      apply Hmem in Hx as [->|[Hx _]]; [simpl in Hxid; congruence|].
      exists x. by split_and!.
    + intros (x & Hx & Hxid & ? & ? & ?). exists x. split_and!; try done.
      apply Hmem. right. split; [done|congruence].
  - intros Hinv. apply elem_of_elig. exists (Ops.sold_to cust now r0).
    split_and!; try done.
    + apply Hmem. by left.
    + simpl. unfold Ops.visited_implies_sold in Hinv.
      rewrite Forall_lookup in Hinv. specialize (Hinv _ _ Hi0).
      destruct (Visited r0); [|done]. rewrite Hinv in Hunsold; done.
Qed.

Lemma Sell_distinct_ids_witness :
  let t := [mkTicket "0001" "Public" "Gold" (CInt 1) 2 false false "" 0 None;
            mkTicket "0002" "Public" "Gold" (CInt 1) 2 false false "" 0 None]
  in
  NoDup (TicketID <$> t)
  ∧ Ops.avail "Public" "Gold" t !! 0%nat = Some "0001"
  ∧ ∀ ty cat,
      "0001" ∉ Ops.avail ty cat (Ops.Sell "Public" "Gold" 0 "Eve" "10:00" t).2.
Proof.
  intros t.
  assert (Hnd : NoDup (TicketID <$> t)).
  { refine (bool_decide_unpack _ _). vm_compute. exact I. }
  split_and!; [exact Hnd|reflexivity|].
  exact (proj1 (proj2 (Sell_distinct_ids "Public" "Gold" 0 "Eve" "10:00"
                         t "0001" Hnd eq_refl))).
Defined.

(** X13: with pairwise different ids, a check-in with a count in range
    marks the very ticket that was offered (sold, unvisited); afterwards no
    check-in form offers that id again and every other id is offered for
    check-in exactly as before.  On any table a check-in leaves the ids on
    offer for sale as they were. *)
Theorem CheckIn_distinct_ids
    (v_type v_cat : string) (choice : nat) (entered : Z) (now : string)
    (tickets : list Ticket) (tid : string) :
  Ops.elig v_type v_cat tickets !! choice = Some tid →
  let after := (Ops.CheckIn v_type v_cat choice entered now tickets).2 in
  (∀ ty cat, Ops.avail ty cat after = Ops.avail ty cat tickets)
  ∧ (NoDup (TicketID <$> tickets) →
     ∃ idx r, tickets !! idx = Some r ∧ TicketID r = tid ∧ Type_ r = v_type
       ∧ Category r = v_cat ∧ Sold r = true ∧ Visited r = false
       ∧ (1 ≤ entered ≤ Admit r →
          after = <[idx := Ops.checked_in entered now r]> tickets
          ∧ (∀ ty cat, tid ∉ Ops.elig ty cat after)
          ∧ (∀ ty cat tid', tid' ≠ tid →
               (tid' ∈ Ops.elig ty cat after
                ↔ tid' ∈ Ops.elig ty cat tickets)))).
Proof.
  intros Hch after. split.
  - intros ty cat. unfold Ops.avail.
    apply (filter_fmap_proj
             (λ r, (TicketID r, Type_ r, Category r, Sold r))).
    + intros a b [= Hid Hty Hcat Hs]. by rewrite Hid, Hty, Hcat, Hs.
    + by apply CheckIn_proj.
  - intros Hnd.
    destruct (CheckIn_first _ _ _ entered now _ _ Hch)
      as (idx & r & Hfirst & Hrun).
    destruct (elig_row _ _ _ _ _ Hch)
      as (r0 & Hin & Hid & Hty & Hcat & Hsold & Hunv).
    apply list_elem_of_lookup_1 in Hin as [i0 Hi0].
    pose proof (first_with_NoDup _ _ _ _ Hnd Hi0 Hid) as Hfirst0.
    destruct (first_with_unique _ _ _ _ _ _ Hfirst Hfirst0) as [-> ->].
    exists i0, r0. split_and!; try done. intros Hrange.
    rewrite decide_True in Hrun by done.
    assert (Hafter : after = <[i0 := Ops.checked_in entered now r0]> tickets)
      by (unfold after; by rewrite Hrun).
    assert (Hmem : ∀ x, x ∈ after ↔
      x = Ops.checked_in entered now r0 ∨ (x ∈ tickets ∧ TicketID x ≠ tid)).
    { intros x. rewrite Hafter, <- Hid. by apply elem_of_insert_NoDup. }
    split_and!; [done|..].
    + intros ty cat (x & Hx & Hxid & _ & _ & _ & Hxv)%elem_of_elig.
      apply Hmem in Hx as [->|[_ Hne]]; [done|congruence].
    + intros ty cat tid' Hne. rewrite !elem_of_elig. split.
      * intros (x & Hx & Hxid & ? & ? & ? & ?).
        apply Hmem in Hx as [->|[Hx _]]; [simpl in Hxid; congruence|].
        exists x. by split_and!.
      * intros (x & Hx & Hxid & ? & ? & ? & ?). exists x.
        split_and!; try done.
        apply Hmem. right. split; [done|congruence].
Qed.

Lemma CheckIn_distinct_ids_witness :
  let t := [mkTicket "0001" "Public" "Gold" (CInt 1) 2 true false "Ann" 0 None;
            mkTicket "0002" "Public" "Gold" (CInt 1) 2 false false "" 0 None]
  in
  Ops.elig "Public" "Gold" t !! 0%nat = Some "0001"
  ∧ ∀ ty cat,
      Ops.avail ty cat (Ops.CheckIn "Public" "Gold" 0 2 "10:00" t).2
      = Ops.avail ty cat t.
Proof.
  intros t. split; [reflexivity|].
  exact (proj1 (CheckIn_distinct_ids "Public" "Gold" 0 2 "10:00" t "0001"
                  eq_refl)).
Defined.

(** ** Counting and row-wise invariants *)

Section OpsCounts.
Import Ops Tabs.
Implicit Types (tickets : list Ticket) (r : Ticket) (tid : string).

Lemma length_filter_insert (P : Ticket → Prop) `{∀ r, Decision (P r)}
    tickets idx r r' :
  tickets !! idx = Some r →
  (length (filter P (<[idx := r']> tickets)) + (if decide (P r) then 1 else 0)
   = length (filter P tickets) + (if decide (P r') then 1 else 0))%nat.
Proof.
  intros Hidx.
  rewrite insert_take_drop by by eapply lookup_lt_Some.
  rewrite <- (take_drop_middle tickets idx r Hidx) at 3.
  rewrite !filter_app, !filter_cons, !length_app.
  destruct (decide (P r)), (decide (P r')); simpl; lia.
Qed.

Lemma length_filter_insert_out (P : Ticket → Prop) `{∀ r, Decision (P r)}
    tickets idx r r' :
  tickets !! idx = Some r → ¬ P r' →
  length (filter P (<[idx := r']> tickets))
  = (length (filter P tickets) - (if decide (P r) then 1 else 0))%nat.
Proof.
  intros Hidx Hr'.
  pose proof (length_filter_insert P tickets idx r r' Hidx) as Hlen.
  rewrite (decide_False (P:=P r')) in Hlen by done.
  destruct (decide (P r)); lia.
Qed.

(** One pass for [tid'] sells one unsold row bearing [tid'] when there is
    one. *)
Lemma bulk_step_unsold_count tid tid' cust now tickets :
  unsold_count tid (bulk_step tid' cust now tickets)
  = if decide (tid' = tid) then (unsold_count tid tickets - 1)%nat
    else unsold_count tid tickets.
Proof.
  unfold bulk_step, unsold_count.
  destruct (list_find _ tickets) as [[idx r]|] eqn:Hfind.
  - apply list_find_Some in Hfind as (Hidx & [Hid Hsold] & _).
    erewrite at_set_thrice by done.
    rewrite (length_filter_insert_out _ _ _ r) by (done || by intros [_ ?]).
    destruct (decide (tid' = tid)) as [->|Hne].
    + by rewrite decide_True.
    + rewrite decide_False by (intros [? _]; congruence). lia.
  - apply list_find_None in Hfind.
    destruct (decide (tid' = tid)) as [->|Hne]; [|done].
    rewrite filter_none; [done|]. done.
Qed.

Lemma bulk_loop_unsold_count clock k up_df tickets tid :
  unsold_count tid (bulk_loop clock k up_df tickets)
  = (unsold_count tid tickets
     - length (filter (λ row : string * string, row.1 = tid) up_df))%nat.
Proof.
  revert k tickets.
  induction up_df as [|[tid' cust] rest IH]; intros k tickets.
  - simpl. lia.
  - simpl bulk_loop. rewrite IH, bulk_step_unsold_count, filter_cons. simpl.
    destruct (decide (tid' = tid)); simpl; lia.
Qed.

Lemma bulk_loop_Forall (I : Ticket → Prop) clock k up_df tickets :
  (∀ cust now r, I r → I (sold_to cust now r)) →
  Forall I tickets → Forall I (bulk_loop clock k up_df tickets).
Proof.
  intros HI. revert k tickets.
  induction up_df as [|[tid cust] rest IH]; intros k tickets Hall; [done|].
  simpl. apply IH.
  destruct (bulk_step_cases tid cust (clock k) tickets)
    as [->|(idx & r & Hidx & _ & _ & ->)]; [done|].
  apply Forall_insert; [done|]. apply HI.
  rewrite Forall_lookup in Hall. by eapply Hall.
Qed.

Lemma Sell_Forall (I : Ticket → Prop) s_type s_cat choice cust now tickets :
  (∀ r, I r → I (sold_to cust now r)) →
  Forall I tickets → Forall I (Sell s_type s_cat choice cust now tickets).2.
Proof.
  intros HI Hall.
  destruct (avail s_type s_cat tickets !! choice) as [tid|] eqn:Hch.
  - destruct (Sell_first _ _ _ cust now _ _ Hch)
      as (idx & r & (Hidx & _) & ->).
    apply Forall_insert; [done|]. apply HI.
    rewrite Forall_lookup in Hall. by eapply Hall.
  - unfold Sell. by rewrite Hch.
Qed.

Lemma Reset_Forall (I : Ticket → Prop) admin_pass tickets :
  (∀ r, I r → I (cleared r)) →
  Forall I tickets → Forall I (Reset admin_pass tickets).2.
Proof.
  intros HI Hall. destruct (decide (admin_pass = reset_password)) as [->|Hne].
  - rewrite Reset_correct_password. simpl. rewrite Forall_fmap.
    eapply Forall_impl; [exact Hall|]. apply HI.
  - unfold Reset. by rewrite decide_False.
Qed.
End OpsCounts.

(** X14: after a bulk upload, the number of unsold tickets bearing an id
    is the number before less the number of upload rows padded to that id,
    and 0 when there were more rows than unsold tickets: every upload row
    sells at most one ticket, and only one bearing its id. *)
Theorem BulkSell_unsold_count
    (clock : nat → string) (up_df : list Ops.upload_row)
    (tickets : list Ticket) (tid : string) :
  Tabs.unsold_count tid (Ops.BulkSell clock up_df tickets).2
  = (Tabs.unsold_count tid tickets
     - length (filter (λ row, Normalizer.bulk_TicketID (Ops.up_TicketID row)
                              = tid) up_df))%nat.
Proof.
  unfold Ops.BulkSell. cbn [snd]. rewrite bulk_loop_unsold_count.
  f_equal. induction up_df as [|row rest IH]; [done|].
  rewrite fmap_cons, !filter_cons. simpl.
  destruct (decide (_ = tid)); simpl; by rewrite IH.
Qed.

(** X15: with pairwise different ids, one upload row whose padded id is
    that of an unsold ticket changes the table exactly as "Confirm Sale"
    does for that id, customer and time. *)
Theorem BulkSell_row_is_a_sale
    (clock : nat → string) (x : cell) (cust : string)
    (tickets : list Ticket) (r : Ticket) :
  NoDup (TicketID <$> tickets) →
  r ∈ tickets → TicketID r = Normalizer.bulk_TicketID x → Sold r = false →
  Ops.BulkSell clock [Ops.mkUpload x cust] tickets
  = Ops.confirm_sale (Normalizer.bulk_TicketID x) cust (clock 0%nat) tickets.
Proof.
  intros Hnd [i Hi]%list_elem_of_lookup_1 Hid Hsold.
  pose proof (first_with_NoDup _ _ _ _ Hnd Hi Hid) as Hfirst.
  rewrite (confirm_sale_first _ _ _ _ _ _ Hfirst).
  unfold Ops.BulkSell. simpl. f_equal.
  destruct (bulk_step_cases (Normalizer.bulk_TicketID x) cust (clock 0%nat)
              tickets) as [Hsame|(idx & r' & Hidx & Hid' & _ & ->)].
  - exfalso.
    pose proof (bulk_step_unsold_count (Normalizer.bulk_TicketID x)
                  (Normalizer.bulk_TicketID x) cust (clock 0%nat) tickets)
      as Hcount.
    rewrite Hsame, decide_True in Hcount by done.
    assert (0 < Tabs.unsold_count (Normalizer.bulk_TicketID x) tickets)%nat;
      [|lia].
    unfold Tabs.unsold_count.
    assert (r ∈ filter (λ r, TicketID r = Normalizer.bulk_TicketID x
                             ∧ Sold r = false) tickets) as Hin.
    { apply list_elem_of_filter. split; [done|].
      by eapply list_elem_of_lookup_2. }
    destruct (filter _ tickets); [by apply elem_of_nil in Hin|simpl; lia].
  - pose proof (first_with_NoDup _ _ _ _ Hnd Hidx Hid') as Hfirst'.
    by destruct (first_with_unique _ _ _ _ _ _ Hfirst Hfirst') as [-> ->].
Qed.

Lemma BulkSell_row_is_a_sale_witness :
  let t := [mkTicket "0001" "Public" "Gold" (CInt 1) 2 false false "" 0 None;
            mkTicket "0002" "Public" "Gold" (CInt 1) 2 false false "" 0 None]
  in
  NoDup (TicketID <$> t)
  ∧ Ops.BulkSell (λ _, "10:00") [Ops.mkUpload (CInt 2) "Eve"] t
    = Ops.confirm_sale "0002" "Eve" "10:00" t.
Proof.
  intros t.
  assert (Hnd : NoDup (TicketID <$> t)).
  { refine (bool_decide_unpack _ _). vm_compute. exact I. }
  split; [exact Hnd|].
  apply (BulkSell_row_is_a_sale (λ _, "10:00") (CInt 2) "Eve" t
           (mkTicket "0002" "Public" "Gold" (CInt 1) 2 false false "" 0 None)
           Hnd).
  - apply list_elem_of_further, list_elem_of_here.
  - reflexivity.
  - reflexivity.
Defined.

(** X16: on every table, repeated ids included, the four operations keep
    the seats used between 0 and [Admit] on every row. *)
Theorem seat_bounds_preserved (tickets : list Ticket) :
  let bounded := Forall (λ r, 0 ≤ Visitor_Seats r ≤ Admit r) in
  bounded tickets →
  (∀ s_type s_cat choice cust now,
     bounded (Ops.Sell s_type s_cat choice cust now tickets).2)
  ∧ (∀ clock up_df, bounded (Ops.BulkSell clock up_df tickets).2)
  ∧ (∀ v_type v_cat choice entered now,
     bounded (Ops.CheckIn v_type v_cat choice entered now tickets).2)
  ∧ (∀ admin_pass, bounded (Ops.Reset admin_pass tickets).2).
Proof.
  intros bounded Hall. split_and!.
  - intros. by apply Sell_Forall.
  - intros. by apply bulk_loop_Forall.
  - intros v_type v_cat choice entered now.
    destruct (Ops.elig v_type v_cat tickets !! choice) as [tid|] eqn:Hch.
    + destruct (CheckIn_first _ _ _ entered now _ _ Hch)
        as (idx & r & _ & ->).
      destruct (decide _); [|done]. apply Forall_insert; [done|]. simpl. lia.
    + unfold Ops.CheckIn. by rewrite Hch.
  - intros. apply Reset_Forall; [|done]. intros r Hr. simpl. lia.
Qed.

Lemma seat_bounds_preserved_witness :
  let t := [mkTicket "0001" "Public" "Gold" (CInt 1) 2 true false "Ann" 0 None;
            mkTicket "0001" "Public" "Gold" (CInt 1) 3 true false "Bob" 0 None]
  in
  Forall (λ r, 0 ≤ Visitor_Seats r ≤ Admit r) t
  ∧ Forall (λ r, 0 ≤ Visitor_Seats r ≤ Admit r)
      (Ops.CheckIn "Public" "Gold" 1 2 "10:00" t).2.
Proof.
  intros t.
  assert (H : Forall (λ r, 0 ≤ Visitor_Seats r ≤ Admit r) t).
  { repeat constructor; simpl; lia. }
  split; [exact H|].
  exact (proj1 (proj2 (proj2 (seat_bounds_preserved t H)))
           "Public" "Gold" 1%nat 2 "10:00").
Defined.

(** X17: the rule that seats are used on sold tickets only, and at most
    [Admit] of them, is kept by Sell, BulkSell and Reset on every table and
    by CheckIn when the ids are pairwise different. *)
Theorem seats_within_preserved (tickets : list Ticket) :
  Forall Tabs.seats_within tickets →
  (∀ s_type s_cat choice cust now,
     Forall Tabs.seats_within
       (Ops.Sell s_type s_cat choice cust now tickets).2)
  ∧ (∀ clock up_df,
     Forall Tabs.seats_within (Ops.BulkSell clock up_df tickets).2)
  ∧ (∀ admin_pass, Forall Tabs.seats_within (Ops.Reset admin_pass tickets).2)
  ∧ (NoDup (TicketID <$> tickets) →
     ∀ v_type v_cat choice entered now,
       Forall Tabs.seats_within
         (Ops.CheckIn v_type v_cat choice entered now tickets).2).
Proof.
  intros Hall.
  assert (Hsold : ∀ cust now r,
    Tabs.seats_within r → Tabs.seats_within (Ops.sold_to cust now r)).
  { intros cust now r. unfold Tabs.seats_within. simpl.
    destruct (Sold r); lia. }
  split_and!.
  - intros. apply Sell_Forall; [apply Hsold|done].
  - intros. apply bulk_loop_Forall; [apply Hsold|done].
  - intros. apply Reset_Forall; [|done]. intros r.
    unfold Tabs.seats_within. simpl. lia.
  - intros Hnd v_type v_cat choice entered now.
    destruct (Ops.elig v_type v_cat tickets !! choice) as [tid|] eqn:Hch.
    + destruct (CheckIn_first _ _ _ entered now _ _ Hch)
        as (idx & r & Hfirst & ->).
      destruct (decide _) as [Hrange|]; [|done].
      apply Forall_insert; [done|].
      destruct (elig_row _ _ _ _ _ Hch) as (r0 & Hin & Hid & _ & _ & Hs & _).
      apply list_elem_of_lookup_1 in Hin as [i0 Hi0].
      pose proof (first_with_NoDup _ _ _ _ Hnd Hi0 Hid) as Hfirst0.
      destruct (first_with_unique _ _ _ _ _ _ Hfirst Hfirst0) as [_ ->].
      unfold Tabs.seats_within. simpl. rewrite Hs. lia.
    + unfold Ops.CheckIn. by rewrite Hch.
Qed.

Lemma seats_within_preserved_witness :
  let t := [mkTicket "0001" "Public" "Gold" (CInt 1) 2 false false "" 0 None]
  in
  Forall Tabs.seats_within t
  ∧ Forall Tabs.seats_within (Ops.Sell "Public" "Gold" 0 "Eve" "10:00" t).2.
Proof.
  intros t.
  assert (H : Forall Tabs.seats_within t).
  { repeat constructor; simpl; lia. }
  split; [exact H|].
  exact (proj1 (seats_within_preserved t H) "Public" "Gold" 0%nat "Eve" "10:00").
Defined.

(** X18: a reset with the right password puts any table, whatever its
    state, into a fresh one: every visited ticket is sold, nothing is
    offered for check-in, every ticket of a type and category is offered
    for sale, in table order, and a second reset changes nothing more. *)
Theorem Reset_fresh_start (tickets : list Ticket) :
  let after := (Ops.Reset "admin123" tickets).2 in
  Ops.visited_implies_sold after
  ∧ (∀ ty cat, Ops.elig ty cat after = [])
  ∧ (∀ ty cat, Ops.avail ty cat after
               = TicketID <$> filter (λ r, Type_ r = ty ∧ Category r = cat)
                                     tickets)
  ∧ Ops.Reset "admin123" after = (Saved, after).
Proof.
  intros after.
  assert (Hafter : after = Ops.cleared <$> tickets).
  { unfold after. change "admin123" with Ops.reset_password.
    by rewrite Reset_correct_password. }
  rewrite Hafter. split_and!.
  - unfold Ops.visited_implies_sold. rewrite Forall_fmap.
    apply Forall_true. intros r. simpl. discriminate.
  - intros ty cat. unfold Ops.elig. rewrite filter_none; [done|].
    rewrite Forall_fmap. apply Forall_true. intros r. simpl.
    by intros (_ & _ & ? & _).
  - intros ty cat. unfold Ops.avail.
    induction tickets as [|r rest IH]; [done|].
    rewrite fmap_cons, !filter_cons. simpl.
    destruct (decide (Type_ r = ty ∧ Category r = cat)) as [[? ?]|Hno].
    + rewrite decide_True by done.
      rewrite !fmap_cons. simpl. f_equal. apply IH.
      unfold after. change "admin123" with Ops.reset_password.
      by rewrite Reset_correct_password.
    + rewrite decide_False by (intros (?&?&_); by apply Hno). apply IH.
      unfold after. change "admin123" with Ops.reset_password.
      by rewrite Reset_correct_password.
  - change "admin123" with Ops.reset_password.
    rewrite Reset_correct_password. f_equal.
    rewrite <- list_fmap_compose. by apply list_fmap_ext.
Qed.

(** ** More on the dashboard *)

Section DashboardFacts.
Import Aggregator Tabs.








End DashboardFacts.





(** ** Recent sales *)

Section RecentFacts.
Import Tabs.

Global Instance recent_before_trans : Transitive recent_before.
Proof.
  intros a b c. unfold recent_before.
  destruct (Timestamp a), (Timestamp b), (Timestamp c); try done.
  intros ??. by etrans.
Qed.

Global Instance recent_before_total : Total recent_before.
Proof.
  intros a b. unfold recent_before.
  destruct (Timestamp a) as [x|], (Timestamp b) as [y|]; auto.
  destruct (total String.le x y); auto.
Qed.

Lemma StronglySorted_lookup {B : Type} (R : relation B) (l : list B) i j x y :
  StronglySorted R l →
  l !! i = Some x → l !! j = Some y → (i < j)%nat → R x y.
Proof.
  intros Hsorted. revert i j.
  induction Hsorted as [|z l _ IH Hall]; intros i j Hi Hj Hlt; [done|].
  destruct j as [|j]; [lia|]. simpl in Hj.
  destruct i as [|i].
  - injection Hi as <-. rewrite Forall_lookup in Hall. by eapply Hall.
  - simpl in Hi. eapply IH; [done..|lia].
Qed.
End RecentFacts.

(** X22: the recent sales list shows exactly the sold tickets, each once,
    by [TicketID], [Category] and [Customer]; a row never comes before one
    with a later time stamp, and rows without a time stamp come last. *)
Theorem recent_sales_order (tickets : list Ticket) :
  Tabs.recent_sales tickets
  = (λ r, (TicketID r, Category r, Customer r))
      <$> Tabs.recent_sales_rows tickets
  ∧ Tabs.recent_sales_rows tickets ≡ₚ filter (λ r, Sold r = true) tickets
  ∧ (∀ r, r ∈ Tabs.recent_sales_rows tickets ↔ r ∈ tickets ∧ Sold r = true)
  ∧ ∀ i j a b,
      Tabs.recent_sales_rows tickets !! i = Some a →
      Tabs.recent_sales_rows tickets !! j = Some b → (i < j)%nat →
      (Timestamp a = None → Timestamp b = None)
      ∧ ∀ x y, Timestamp a = Some x → Timestamp b = Some y → String.le y x.
Proof.
  pose proof (merge_sort_Permutation Tabs.recent_before
                (filter (λ r, Sold r = true) tickets)) as Hperm.
  split_and!; [done|exact Hperm|..].
  - intros r. unfold Tabs.recent_sales_rows.
    rewrite Hperm, list_elem_of_filter. tauto.
  - intros i j a b Hi Hj Hlt.
    pose proof (StronglySorted_merge_sort Tabs.recent_before
                  (filter (λ r, Sold r = true) tickets)) as Hsorted.
    pose proof (StronglySorted_lookup _ _ _ _ _ _ Hsorted Hi Hj Hlt) as Hab.
    unfold Tabs.recent_before in Hab.
    destruct (Timestamp a), (Timestamp b); split; try done.
    + by intros ?? [= <-] [= <-].
Qed.

Lemma recent_sales_order_witness :
  let t := [mkTicket "0001" "Public" "Gold" (CInt 1) 2 true false "Ann" 0
                     (Some "2024-01-01 10:00:00");
            mkTicket "0002" "Public" "Gold" (CInt 1) 2 false false "" 0 None;
            mkTicket "0003" "Public" "Gold" (CInt 1) 2 true false "Bob" 0
                     (Some "2024-01-02 09:00:00")]
  in
  Tabs.recent_sales t = [("0003", "Gold", "Bob"); ("0001", "Gold", "Ann")]
  ∧ ∀ r, r ∈ Tabs.recent_sales_rows t ↔ r ∈ t ∧ Sold r = true.
Proof.
  intros t. split; [reflexivity|].
  exact (proj1 (proj2 (proj2 (recent_sales_order t)))).
Defined.

(** ** The tabs and the menu *)

Section TabsFacts.
Import Ops Tabs.

(** With pairwise different ids, a form for one type and category leaves
    the tickets of every other type or category alone. *)
Lemma Sell_other_category s_type s_cat choice cust now tickets i r :
  NoDup (TicketID <$> tickets) → tickets !! i = Some r →
  ¬ (Type_ r = s_type ∧ Category r = s_cat) →
  (Sell s_type s_cat choice cust now tickets).2 !! i = Some r.
Proof.
  intros Hnd Hi Hother.
  destruct (avail s_type s_cat tickets !! choice) as [tid|] eqn:Hch.
  - destruct (Sell_first _ _ _ cust now _ _ Hch) as (idx & r1 & Hfirst & ->).
    destruct (avail_row _ _ _ _ _ Hch) as (r0 & Hin & Hid & Hty & Hcat & _).
    apply list_elem_of_lookup_1 in Hin as [i0 Hi0].
    pose proof (first_with_NoDup _ _ _ _ Hnd Hi0 Hid) as Hfirst0.
    destruct (first_with_unique _ _ _ _ _ _ Hfirst Hfirst0) as [-> ->].
    simpl. rewrite list_lookup_insert_ne; [done|].
    intros ->. rewrite Hi0 in Hi. injection Hi as ->. by apply Hother.
  - unfold Sell. by rewrite Hch.
Qed.

Lemma CheckIn_other_category v_type v_cat choice entered now tickets i r :
  NoDup (TicketID <$> tickets) → tickets !! i = Some r →
  ¬ (Type_ r = v_type ∧ Category r = v_cat) →
  (CheckIn v_type v_cat choice entered now tickets).2 !! i = Some r.
Proof.
  intros Hnd Hi Hother.
  destruct (elig v_type v_cat tickets !! choice) as [tid|] eqn:Hch.
  - destruct (CheckIn_first _ _ _ entered now _ _ Hch)
      as (idx & r1 & Hfirst & ->).
    destruct (decide _); [|done].
    destruct (elig_row _ _ _ _ _ Hch) as (r0 & Hin & Hid & Hty & Hcat & _).
    apply list_elem_of_lookup_1 in Hin as [i0 Hi0].
    pose proof (first_with_NoDup _ _ _ _ Hnd Hi0 Hid) as Hfirst0.
    destruct (first_with_unique _ _ _ _ _ _ Hfirst Hfirst0) as [-> ->].
    simpl. rewrite list_lookup_insert_ne; [done|].
    intros ->. rewrite Hi0 in Hi. injection Hi as ->. by apply Hother.
  - unfold CheckIn. by rewrite Hch.
Qed.

(** What the two selectors of a tab can yield. *)
Lemma tab_selection menu type_choice cat_choice s_type s_cat :
  type_radio type_choice = Some s_type →
  categories s_type menu !! cat_choice = Some s_cat →
  s_type ∈ ["Public"; "Guest"]
  ∧ ∃ m, m ∈ menu ∧ Loader.m_Type m = s_type ∧ Loader.m_Category m = s_cat.
Proof.
  intros Hty Hcat. split.
  - by eapply list_elem_of_lookup_2.
  - apply list_elem_of_lookup_2, list_elem_of_fmap in Hcat as (m & -> & Hm).
    apply list_elem_of_filter in Hm as [? ?]. by exists m.
Qed.
End TabsFacts.

(** X23: with pairwise different ids, a ticket whose [Type] is neither
    ["Public"] nor ["Guest"], or whose [Type] and [Category] are no entry
    of the menu, is never changed by the manual sale or by the check-in,
    whatever the operator selects and enters. *)
Theorem tabs_leave_orphans
    (menu : list Loader.MenuEntry) (type_choice cat_choice choice : nat)
    (cust now : string) (entered : Z) (tickets : list Ticket)
    (i : nat) (r : Ticket) :
  NoDup (TicketID <$> tickets) →
  tickets !! i = Some r →
  (Type_ r ∉ ["Public"; "Guest"]
   ∨ ∀ m, m ∈ menu →
       ¬ (Loader.m_Type m = Type_ r ∧ Loader.m_Category m = Category r)) →
  (Tabs.sale_tab menu type_choice cat_choice choice cust now tickets).2 !! i
  = Some r
  ∧ (Tabs.visitors_tab menu type_choice cat_choice choice entered now
       tickets).2 !! i = Some r.
Proof.
  intros Hnd Hi Horphan.
  assert (Hother : ∀ s_type s_cat,
    Tabs.type_radio type_choice = Some s_type →
    Tabs.categories s_type menu !! cat_choice = Some s_cat →
    ¬ (Type_ r = s_type ∧ Category r = s_cat)).
  { intros s_type s_cat Hty Hcat [<- <-].
    destruct (tab_selection _ _ _ _ _ Hty Hcat) as [Hin (m & Hm & ? & ?)].
    destruct Horphan as [Hno|Hno]; [by apply Hno|by apply (Hno m)]. }
  unfold Tabs.sale_tab, Tabs.visitors_tab.
  destruct (Tabs.type_radio type_choice) as [s_type|] eqn:Hty; [|done].
  destruct (Tabs.categories s_type menu !! cat_choice) as [s_cat|] eqn:Hcat;
    [|done].
  split.
  - apply Sell_other_category; [done..|]. by apply Hother.
  - apply CheckIn_other_category; [done..|]. by apply Hother.
Qed.

Lemma tabs_leave_orphans_witness :
  let t := [mkTicket "0001" "Public" "Gold" (CInt 1) 2 false false "" 0 None;
            mkTicket "0002" "Public" "Silver" (CInt 2) 1 false false "" 0 None]
  in
  let menu := [Loader.mkMenu "Public" "Gold" (CInt 1)] in
  (Tabs.sale_tab menu 0 0 0 "Eve" "10:00" t).2 !! 1%nat
  = Some (mkTicket "0002" "Public" "Silver" (CInt 2) 1 false false "" 0 None).
Proof.
  intros t menu.
  refine (proj1 (tabs_leave_orphans menu 0 0 0 "Eve" "10:00" 1 t 1 _ _ _ _)).
  - refine (bool_decide_unpack _ _). vm_compute. exact I.
  - reflexivity.
  - right. intros m Hm [_ Hcat].
    apply list_elem_of_singleton in Hm as ->. discriminate Hcat.
Defined.

(** ** The state of a ticket only moves forward *)

Section ForwardFacts.
Import Ops Tabs.

Lemma never_back_refl (tickets : list Ticket) : Forall2 never_back tickets tickets.
Proof. apply Forall_Forall2_diag, Forall_true. by intros r. Qed.

Lemma never_back_insert (tickets before : list Ticket) idx r r' :
  Forall2 never_back before tickets →
  tickets !! idx = Some r → never_back r r' →
  Forall2 never_back before (<[idx := r']> tickets).
Proof.
  intros Hall Hidx Hr. apply Forall2_lookup. intros j.
  rewrite Forall2_lookup in Hall. specialize (Hall j).
  destruct (decide (idx = j)) as [<-|Hne].
  - rewrite list_lookup_insert_eq by by eapply lookup_lt_Some.
    rewrite Hidx in Hall. inversion Hall as [x y [Hs Hv] Hx Hy|]; subst.
    constructor. destruct Hr as [Hs' Hv']. split; auto.
  - by rewrite list_lookup_insert_ne.
Qed.

Lemma bulk_loop_never_back clock k up_df (tickets before : list Ticket) :
  Forall2 never_back before tickets →
  Forall2 never_back before (bulk_loop clock k up_df tickets).
Proof.
  revert k tickets.
  induction up_df as [|[tid cust] rest IH]; intros k tickets Hall; [done|].
  simpl. apply IH.
  destruct (bulk_step_cases tid cust (clock k) tickets)
    as [->|(idx & r & Hidx & _ & _ & ->)]; [done|].
  eapply never_back_insert; [done..|]. by split.
Qed.
End ForwardFacts.

(** X24: on every table, Sell, BulkSell and CheckIn only move tickets
    forward: row by row, a ticket that was sold is still sold afterwards
    and one that was visited is still visited.  Only Reset goes back. *)
Theorem operations_never_go_back (tickets : list Ticket) :
  (∀ s_type s_cat choice cust now,
     Forall2 Tabs.never_back tickets
       (Ops.Sell s_type s_cat choice cust now tickets).2)
  ∧ (∀ clock up_df,
     Forall2 Tabs.never_back tickets (Ops.BulkSell clock up_df tickets).2)
  ∧ (∀ v_type v_cat choice entered now,
     Forall2 Tabs.never_back tickets
       (Ops.CheckIn v_type v_cat choice entered now tickets).2)
  ∧ (∀ r, r ∈ tickets → Sold r = true →
     ¬ Forall2 Tabs.never_back tickets (Ops.Reset "admin123" tickets).2).
Proof.
  split_and!.
  - intros s_type s_cat choice cust now.
    destruct (Ops.avail s_type s_cat tickets !! choice) as [tid|] eqn:Hch.
    + destruct (Sell_first _ _ _ cust now _ _ Hch)
        as (idx & r & (Hidx & _) & ->).
      eapply never_back_insert; [apply never_back_refl|done|by split].
    + unfold Ops.Sell. rewrite Hch. apply never_back_refl.
  - intros clock up_df. apply bulk_loop_never_back, never_back_refl.
  - intros v_type v_cat choice entered now.
    destruct (Ops.elig v_type v_cat tickets !! choice) as [tid|] eqn:Hch.
    + destruct (CheckIn_first _ _ _ entered now _ _ Hch)
        as (idx & r & (Hidx & _) & ->).
      destruct (decide _); [|apply never_back_refl].
      eapply never_back_insert; [apply never_back_refl|done|by split].
    + unfold Ops.CheckIn. rewrite Hch. apply never_back_refl.
  - intros r [i Hi]%list_elem_of_lookup_1 Hsold Hall.
    change "admin123" with Ops.reset_password in Hall.
    rewrite Reset_correct_password in Hall. simpl in Hall.
    rewrite Forall2_lookup in Hall. specialize (Hall i).
    rewrite list_lookup_fmap, Hi in Hall. simpl in Hall.
    inversion Hall as [x y [Hs _] Hx Hy|]; subst. by specialize (Hs Hsold).
Qed.

Lemma operations_never_go_back_witness :
  let r := mkTicket "0001" "Public" "Gold" (CInt 1) 2 true false "Ann" 0 None
  in
  r ∈ [r] ∧ Sold r = true
  ∧ ¬ Forall2 Tabs.never_back [r] (Ops.Reset "admin123" [r]).2.
Proof.
  intros r.
  assert (Hin : r ∈ [r]) by apply list_elem_of_here.
  assert (Hsold : Sold r = true) by reflexivity.
  split_and!; [exact Hin|exact Hsold|].
  exact (proj2 (proj2 (proj2 (operations_never_go_back [r]))) r Hin Hsold).
Defined.
